(** * cosmpy.common.rest_client: the REST api client

    A shallow embedding of [src/cosmpy/common/rest_client.py] (class
    [RestClient]) together with the pieces of the Python runtime the class
    calls: [dict.pop], [urllib.parse.urlencode] with [doseq=True],
    [urllib.parse.quote_plus], [str] of an [int] and of a [bytes] object.

    The two collaborators that live outside the repository are interfaces:
    the protobuf codec ([MessageToDict]) and the HTTP transport behind
    [requests.Session].  They are type classes here; every theorem holds for
    all their instances. *)

From Stdlib Require Import Strings.String Strings.Ascii Strings.Byte List ZArith Lia Bool.
From Stdlib Require Import DecimalString SpecFloat Permutation.
Import ListNotations.

Local Open Scope list_scope.
Local Open Scope string_scope.
Local Set Warnings "-register-all".

(** ** Python values *)

(** [bytes]: an immutable sequence of octets. *)
Definition bytes := list Byte.byte.

(** What [MessageToDict] can return: JSON-compatible Python values.  A
    [dict] keeps insertion order, so it is an association list (its keys
    are pairwise distinct, see [dict_wf]). *)
Inductive json : Type :=
| JNone
| JBool (b : bool)
| JInt (z : Z)
| JFloat (f : spec_float)
| JStr (s : string)
| JList (l : list json)
| JDict (d : list (string * json)).

Definition dict := list (string * json).

Definition keys (d : dict) : list string := map fst d.

Definition dict_wf (d : dict) : Prop := NoDup (keys d).

(** The same, as a test. *)
Fixpoint nodupb (l : list string) : bool :=
  match l with
  | [] => true
  | x :: r => negb (existsb (String.eqb x) r) && nodupb r
  end.

Definition dict_wfb (d : dict) : bool := nodupb (keys d).

(** Python exceptions that can leave [get] and [post]. *)
Inductive exception : Type :=
| RuntimeError (msg : string)
| KeyError (key : string)
| RequestException (msg : string).

(** The renderings of the interpreter that are not spelled out here:
    [repr] of a [float] and [repr] of a [str]. *)
Class PyBuiltins := {
  float_repr : spec_float -> string;
  str_repr : string -> string
}.

(** ** Strings *)

Definition nl : string := String (ascii_of_nat 10) "".

(** [str(n)] for an [int]. *)
Definition int_str (z : Z) : string := NilZero.string_of_int (Z.to_int z).

Definition hexdigits_lower : string := "0123456789abcdef".
Definition hexdigits_upper : string := "0123456789ABCDEF".

Definition hexdigit (digits : string) (n : nat) : ascii :=
  match String.get n digits with
  | Some c => c
  | None => "0"%char
  end.

(** Two hexadecimal digits of an octet. *)
Definition hex2 (digits : string) (c : ascii) : string :=
  let n := nat_of_ascii c in
  String (hexdigit digits (n / 16)) (String (hexdigit digits (n mod 16)) "").

Definition string_of_bytes (b : bytes) : string :=
  string_of_list_ascii (map ascii_of_byte b).

Definition mem_char (c : ascii) (s : string) : bool :=
  existsb (Ascii.eqb c) (list_ascii_of_string s).

Definition squote : ascii := ascii_of_byte x27.
Definition dquote : ascii := ascii_of_byte x22.

(** [repr] of a [bytes] object (CPython's [bytes_repr]): the quote is the
    single quote, or the double quote when the value holds a single quote
    and no double quote; the quote and the backslash are escaped; tab,
    newline and carriage return have their letters; every other octet
    outside 0x20..0x7e is written with two lower-case hexadecimal digits. *)
Definition bytes_quote (s : string) : ascii :=
  if mem_char squote s && negb (mem_char dquote s) then dquote else squote.

Definition bytes_repr_char (quote c : ascii) : string :=
  if Ascii.eqb c quote || Ascii.eqb c "\"%char then String "\"%char (String c "")
  else if Ascii.eqb c (ascii_of_nat 9) then "\t"
  else if Ascii.eqb c (ascii_of_nat 10) then "\n"
  else if Ascii.eqb c (ascii_of_nat 13) then "\r"
  else if (nat_of_ascii c <? 32)%nat || (127 <=? nat_of_ascii c)%nat
       then "\x" ++ hex2 hexdigits_lower c
  else String c "".

Definition bytes_repr (b : bytes) : string :=
  let s := string_of_bytes b in
  let quote := bytes_quote s in
  "b" ++ String quote
    (String.concat "" (map (bytes_repr_char quote) (list_ascii_of_string s))
     ++ String quote "").

(** ** urllib.parse *)

Definition always_safe : string :=
  "ABCDEFGHIJKLMNOPQRSTUVWXYZabcdefghijklmnopqrstuvwxyz0123456789_.-~".

(** [quote(string, safe)]: an octet of [always_safe] or of [safe] stands
    for itself, any other becomes [%XX] (upper-case digits).  A [str] is
    quoted through its UTF-8 octets, which is what a [string] holds here. *)
Definition quoter (safe : string) (c : ascii) : string :=
  if mem_char c always_safe || mem_char c safe then String c ""
  else String "%" (hex2 hexdigits_upper c).

Definition quote (safe : string) (s : string) : string :=
  String.concat "" (map (quoter safe) (list_ascii_of_string s)).

Definition replace_char (old new : ascii) (s : string) : string :=
  string_of_list_ascii
    (map (fun c => if Ascii.eqb c old then new else c) (list_ascii_of_string s)).

(** [quote_plus(string)]: as [quote], with a space sent to a plus sign. *)
Definition quote_plus (s : string) : string :=
  if negb (mem_char " " s) then quote "" s
  else replace_char " " "+" (quote " " s).

Section Builtins.
Context {py : PyBuiltins}.

(** [repr(v)] and [str(v)] of a JSON-compatible value. *)
Fixpoint py_repr (v : json) : string :=
  match v with
  | JNone => "None"
  | JBool true => "True"
  | JBool false => "False"
  | JInt z => int_str z
  | JFloat f => float_repr f
  | JStr s => str_repr s
  | JList l => "[" ++ String.concat ", " (map py_repr l) ++ "]"
  | JDict d =>
      "{" ++ String.concat ", "
               (map (fun kv => match kv with
                               | (k, x) => str_repr k ++ ": " ++ py_repr x
                               end) d) ++ "}"
  end.

Definition py_str (v : json) : string :=
  match v with
  | JStr s => s
  | _ => py_repr v
  end.

(** [urlencode(query, doseq=True)] on a [dict]: the body of its loop for
    one item [(k, v)].  A [str] value gives one pair; a value with a
    length (a list, or a nested dict, whose iteration yields its keys)
    gives one pair per element; anything else one pair with [str(v)].
    The branches for [bytes] keys and values are not reachable from
    [MessageToDict], which renders bytes fields as base64 text. *)
Definition urlencode_item (k : string) (v : json) : list string :=
  let k := quote_plus k in
  match v with
  | JStr s => [k ++ "=" ++ quote_plus s]
  | JList l => map (fun elt => k ++ "=" ++ quote_plus (py_str elt)) l
  | JDict d => map (fun elt => k ++ "=" ++ quote_plus (fst elt)) d
  | _ => [k ++ "=" ++ quote_plus (py_str v)]
  end.

(** The list [l] that [urlencode] builds before joining it. *)
Definition urlencode_pairs (query : dict) : list string :=
  flat_map (fun kv => urlencode_item (fst kv) (snd kv)) query.

Definition urlencode (query : dict) : string :=
  String.concat "&" (urlencode_pairs query).

End Builtins.

(** ** dict.pop *)

(** [d.pop(key)] with no default: the value and the dict without the key,
    or [KeyError(key)] when the key is absent. *)
Fixpoint pop (key : string) (d : dict) : exception + (json * dict) :=
  match d with
  | [] => inl (KeyError key)
  | (k, v) :: r =>
      if String.eqb k key then inr (v, r)
      else match pop key r with
           | inl e => inl e
           | inr (x, r') => inr (x, (k, v) :: r')
           end
  end.

(** [for param in used_params: json_request.pop(param)]. *)
Fixpoint pop_params (used_params : list string) (json_request : dict)
  : exception + dict :=
  match used_params with
  | [] => inr json_request
  | param :: rest =>
      match pop param json_request with
      | inl e => inl e
      | inr (_, json_request') => pop_params rest json_request'
      end
  end.

(** ** The HTTP transport and the codec *)

Inductive http_method : Type := GET | POST.

(** One call of [Session.get] or [Session.post]: the session it goes
    through and the arguments the client passes. *)
Record http_request : Type := {
  rq_session : nat;
  rq_method : http_method;
  rq_url : string;
  rq_json : option dict;
  rq_headers : list (string * string)
}.

Record Response : Type := {
  status_code : Z;
  content : bytes
}.

(** The part of the outside world the client acts on: how many sessions
    [requests.session()] has created (a session is named by its rank),
    the [close] calls made so far and the requests issued so far, latest
    first. *)
Record world : Type := {
  sessions : nat;
  closed : list nat;
  sent : list http_request
}.

(** The remote end: a response, or the message of a connectivity error
    raised by the transport.  It may depend on everything that happened
    before. *)
Class Transport := {
  send : world -> http_request -> string + Response
}.

(** [google.protobuf.json_format.MessageToDict] on the opaque request
    messages; a Python dict has no repeated key. *)
Class Codec := {
  Message : Type;
  MessageToDict : Message -> dict;
  MessageToDict_wf : forall m, dict_wfb (MessageToDict m) = true
}.

(** ** The client object and the monad of its methods *)

Record RestClient : Type := {
  _session : nat;
  rest_address : string
}.

Record state : Type := {
  self : RestClient;
  net : world
}.

(** A method body: it reads and writes the object and the world, and
    returns or raises. *)
Definition M (A : Type) : Type := state -> (exception + A) * state.

Definition ret {A} (a : A) : M A := fun st => (inr a, st).

Definition raise {A} (e : exception) : M A := fun st => (inl e, st).

Definition bind {A B} (m : M A) (k : A -> M B) : M B :=
  fun st =>
    match m st with
    | (inl e, st') => (inl e, st')
    | (inr a, st') => k a st'
    end.

Definition lift {A} (r : exception + A) : M A :=
  match r with
  | inl e => raise e
  | inr a => ret a
  end.

Notation "x <- m ;; k" := (bind m (fun x => k))
  (at level 61, m at next level, right associativity).

Definition self_session : M nat := fun st => (inr (_session (self st)), st).

Definition self_rest_address : M string :=
  fun st => (inr (rest_address (self st)), st).

(** [requests.session()]. *)
Definition requests_session (w : world) : nat * world :=
  (sessions w,
   {| sessions := S (sessions w); closed := closed w; sent := sent w |}).

Definition record_request (rq : http_request) (w : world) : world :=
  {| sessions := sessions w; closed := closed w; sent := rq :: sent w |}.

Definition record_close (s : nat) (w : world) : world :=
  {| sessions := sessions w; closed := s :: closed w; sent := sent w |}.

Section Client.
Context {py : PyBuiltins} {transport : Transport} {codec : Codec}.

Definition Session_request (rq : http_request) : M Response :=
  fun st =>
    let st' := {| self := self st; net := record_request rq (net st) |} in
    match send (net st) rq with
    | inl msg => (inl (RequestException msg), st')
    | inr response => (inr response, st')
    end.

(** [session.get(url=url)]. *)
Definition Session_get (session : nat) (url : string) : M Response :=
  Session_request
    {| rq_session := session; rq_method := GET; rq_url := url;
       rq_json := None; rq_headers := [] |}.

(** [session.post(url=url, json=json, headers=headers)]. *)
Definition Session_post (session : nat) (url : string) (json : dict)
    (headers : list (string * string)) : M Response :=
  Session_request
    {| rq_session := session; rq_method := POST; rq_url := url;
       rq_json := Some json; rq_headers := headers |}.

(** [session.close()]. *)
Definition Session_close (session : nat) : M unit :=
  fun st =>
    (inr tt, {| self := self st; net := record_close session (net st) |}).

(** [RestClient.__init__]: the new object and the world after it. *)
Definition __init__ (rest_address : string) (w : world) : state :=
  let (session, w') := requests_session w in
  {| self := {| _session := session; rest_address := rest_address |};
     net := w' |}.

(** Lines 65-67 of [get]: the keys of [used_params] are popped in turn. *)
Definition remove_used_params (used_params : option (list string))
    (json_request : dict) : exception + dict :=
  match used_params with
  | Some used_params => pop_params used_params json_request
  | None => inr json_request
  end.

(** Lines 59-74 of [get]: the URL the request goes to. *)
Definition get_url (rest_address url_base_path : string)
    (request : option Message) (used_params : option (list string))
  : exception + string :=
  match request with
  | None => inr (rest_address ++ url_base_path)
  | Some request =>
      let json_request := MessageToDict request in
      match remove_used_params used_params json_request with
      | inl e => inl e
      | inr json_request =>
          let url_encoded_request := urlencode json_request in
          if (String.length url_encoded_request =? 0)%nat
          then inr (rest_address ++ url_base_path)
          else inr (rest_address ++ url_base_path ++ "?" ++ url_encoded_request)
      end
  end.

Definition get_error (response : Response) : string :=
  "Error when sending a GET request." ++ nl ++ " Response: "
  ++ int_str (status_code response) ++ ", "
  ++ bytes_repr (content response) ++ ")".

Definition get (url_base_path : string) (request : option Message)
    (used_params : option (list string)) : M bytes :=
  address <- self_rest_address ;;
  url <- lift (get_url address url_base_path request used_params) ;;
  session <- self_session ;;
  response <- Session_get session url ;;
  if negb (status_code response =? 200)%Z
  then raise (RuntimeError (get_error response))
  else ret (content response).

Definition post_headers : list (string * string) :=
  [("Content-type", "application/json"); ("Accept", "application/json")].

Definition post_error (json_request : dict) (response : Response) : string :=
  "Error when sending a POST request." ++ nl ++ " Request: "
  ++ py_str (JDict json_request) ++ nl ++ " Response: "
  ++ int_str (status_code response) ++ ", "
  ++ bytes_repr (content response) ++ ")".

Definition post (url_base_path : string) (request : Message) : M bytes :=
  let json_request := MessageToDict request in
  let headers := post_headers in
  address <- self_rest_address ;;
  session <- self_session ;;
  response <- Session_post session (address ++ url_base_path) json_request headers ;;
  if negb (status_code response =? 200)%Z
  then raise (RuntimeError (post_error json_request response))
  else ret (content response).

(** [RestClient.__del__]. *)
Definition __del__ : M unit :=
  session <- self_session ;;
  Session_close session.

End Client.

(** The methods the class defines, by name. *)
Definition RestClient_methods : list string :=
  ["__init__"; "get"; "post"; "__del__"].

(** ** A life of the object: calls made on it after construction *)

Section Calls.
Context {py : PyBuiltins} {transport : Transport} {codec : Codec}.

Inductive call : Type :=
| Call_get (url_base_path : string) (request : option Message)
    (used_params : option (list string))
| Call_post (url_base_path : string) (request : Message)
| Call_del.

Definition run_call (c : call) (st : state) : state :=
  match c with
  | Call_get url_base_path request used_params =>
      snd (get url_base_path request used_params st)
  | Call_post url_base_path request => snd (post url_base_path request st)
  | Call_del => snd (__del__ st)
  end.

Definition run_calls (cs : list call) (st : state) : state :=
  fold_left (fun st c => run_call c st) cs st.

Definition is_del (c : call) : bool :=
  match c with
  | Call_del => true
  | _ => false
  end.

(** The requests [get] and [post] hand to the session. *)
Definition get_request (st : state) (url : string) : http_request :=
  {| rq_session := _session (self st); rq_method := GET; rq_url := url;
     rq_json := None; rq_headers := [] |}.

Definition post_request (st : state) (url_base_path : string)
    (request : Message) : http_request :=
  {| rq_session := _session (self st); rq_method := POST;
     rq_url := rest_address (self st) ++ url_base_path;
     rq_json := Some (MessageToDict request);
     rq_headers :=
       [("Content-type", "application/json"); ("Accept", "application/json")] |}.

End Calls.

(** ** Reading a query string back *)

(** [s] occurs in [t] as a contiguous piece. *)
Definition occurs_in (s t : string) : Prop :=
  exists a b, t = a ++ s ++ b.

(** [s.split(sep)] for a one-character separator, on the characters. *)
Fixpoint split_chars (sep : ascii) (s : list ascii) : list (list ascii) :=
  match s with
  | [] => [[]]
  | c :: r =>
      if Ascii.eqb c sep then [] :: split_chars sep r
      else match split_chars sep r with
           | [] => [[c]]
           | w :: ws => (c :: w) :: ws
           end
  end.

(** [s.partition(sep)] without the separator: what is before the first
    [sep] and what is after it. *)
Fixpoint partition_chars (sep : ascii) (s : list ascii)
  : list ascii * list ascii :=
  match s with
  | [] => ([], [])
  | c :: r =>
      if Ascii.eqb c sep then ([], r)
      else let (a, b) := partition_chars sep r in (c :: a, b)
  end.

(** The [key=value] pairs a query string is made of, still quoted; the
    empty query string has none. *)
Definition query_pairs (q : string) : list (string * string) :=
  match q with
  | EmptyString => []
  | _ =>
      map (fun w => let (a, b) := partition_chars "=" w in
                    (string_of_list_ascii a, string_of_list_ascii b))
          (split_chars "&" (list_ascii_of_string q))
  end.

Definition query_keys (q : string) : list string := map fst (query_pairs q).

Section Elements.
Context {py : PyBuiltins}.

(** The texts [urlencode] writes for one value: a [str] as it is, a list
    element by element, a nested dict key by key, anything else through
    [str]. *)
Definition value_texts (v : json) : list string :=
  match v with
  | JStr s => [s]
  | JList l => map py_str l
  | JDict d => keys d
  | _ => [py_str v]
  end.

End Elements.

(** ** Instances to run the model on *)

(** A codec whose messages are their own mappings (one with a repeated
    key, which no Python dict is, reads as the empty message). *)
Definition dict_of_message (m : dict) : dict :=
  if dict_wfb m then m else [].

Definition dict_of_message_wf (m : dict)
  : dict_wfb (dict_of_message m) = true :=
  match dict_wfb m as b
        return dict_wfb m = b -> dict_wfb (if b then m else []) = true
  with
  | true => fun e => e
  | false => fun _ => eq_refl
  end eq_refl.

Definition dict_codec : Codec :=
  {| Message := dict;
     MessageToDict := dict_of_message;
     MessageToDict_wf := dict_of_message_wf |}.

(** A remote end that gives one fixed answer. *)
Definition answering (r : string + Response) : Transport :=
  {| send := fun _ _ => r |}.

(** Renderings good enough for plain ASCII text without quotes. *)
Definition ascii_builtins : PyBuiltins :=
  {| float_repr := fun _ => "nan";
     str_repr := fun s => String squote (s ++ String squote "") |}.

Definition world0 : world := {| sessions := 0; closed := []; sent := [] |}.

(** ** Words of the statements *)

Definition not_key (k : string) (kv : string * json) : bool :=
  negb (String.eqb (fst kv) k).

Definition not_listed (ps : list string) (kv : string * json) : bool :=
  negb (existsb (String.eqb (fst kv)) ps).

(** The state once [rq] has been handed to the session. *)
Definition after_request (st : state) (rq : http_request) : state :=
  {| self := self st; net := record_request rq (net st) |}.

(** What a call can do to the object and the world: nothing, one request
    through the object's session, or one [close] of that session. *)
Inductive effect (st : state) : state -> Prop :=
| effect_none : effect st st
| effect_request (rq : http_request) :
    rq_session rq = _session (self st) -> effect st (after_request st rq)
| effect_close :
    effect st {| self := self st;
                 net := record_close (_session (self st)) (net st) |}.

(** What [effect] keeps: the object, the number of sessions, and that
    everything sent since went through the object's session. *)
Definition since (st0 st : state) : Prop :=
  self st = self st0
  /\ sessions (net st) = sessions (net st0)
  /\ exists new,
       sent (net st) = (new ++ sent (net st0))%list
       /\ Forall (fun rq => rq_session rq = _session (self st0)) new.

Local Abbreviation chars := list_ascii_of_string.

(** The characters [quote_plus] can write. *)
Definition plain (c : ascii) : bool :=
  mem_char c always_safe || Ascii.eqb c "%" || Ascii.eqb c "+".

Definition clean (s : string) : Prop :=
  Forall (fun c => plain c = true) (chars s).

Definition query_char (c : ascii) : bool :=
  plain c || Ascii.eqb c "&" || Ascii.eqb c "=".

(** One [key=value] piece of the query string. *)
Definition pair_text (p : string * string) : string :=
  fst p ++ "=" ++ snd p.

Section Pairs.
Context {py : PyBuiltins}.

(** The pairs a mapping is to give: for each item in order, one pair per
    text of its value, key and text quoted. *)
Definition expected_pairs (d : dict) : list (string * string) :=
  flat_map (fun kv => map (fun t => (quote_plus (fst kv), quote_plus t))
                          (value_texts (snd kv))) d.

End Pairs.

(** ** Sample requests and answers *)

Definition not_found : Response :=
  {| status_code := 404; content := list_byte_of_string "not found" |}.

Definition latest_block : Response :=
  {| status_code := 200; content := list_byte_of_string "{...}" |}.

Definition tx_request : dict :=
  [("tx_bytes", JStr "AB=="); ("mode", JStr "BROADCAST_MODE_SYNC")].

Definition balance_request : dict :=
  [("address", JStr "fetch1abc"); ("denom", JStr "atestfet")].

Definition tags_request : dict := [("tags", JList [JStr "a"; JStr "b"])].

Definition empty_page_request : dict := [("pagination", JDict [])].

Definition paged_balances_request : dict :=
  [("address", JStr "fetch1abc"); ("pagination", JDict [])].

Definition fresh_client : state := __init__ "http://node" world0.

(** ** Decoding a query string *)

(** [urllib.parse.unquote_plus], the inverse a server applies: a plus
    sign is a space, [%XX] with two hexadecimal digits of either case is
    the octet, anything else stands for itself. *)
Fixpoint find_char (c : ascii) (s : string) : option nat :=
  match s with
  | EmptyString => None
  | String x r =>
      if Ascii.eqb c x then Some 0%nat else option_map S (find_char c r)
  end.

Definition hexval (c : ascii) : option nat :=
  match find_char c hexdigits_upper with
  | Some n => Some n
  | None => find_char c hexdigits_lower
  end.

Fixpoint unquote_chars (s : list ascii) : list ascii :=
  match s with
  | [] => []
  | c :: r =>
      if Ascii.eqb c "%" then
        match r with
        | h1 :: h2 :: r' =>
            match hexval h1, hexval h2 with
            | Some a, Some b => ascii_of_nat (16 * a + b) :: unquote_chars r'
            | _, _ => c :: unquote_chars r
            end
        | _ => c :: unquote_chars r
        end
      else c :: unquote_chars r
  end.

Definition unquote (s : string) : string :=
  string_of_list_ascii (unquote_chars (chars s)).

Definition unquote_plus (s : string) : string :=
  unquote (replace_char "+" " " s).

(** The pairs of a query string, decoded. *)
Definition decoded_pairs (q : string) : list (string * string) :=
  map (fun p => (unquote_plus (fst p), unquote_plus (snd p))) (query_pairs q).

Section RawPairs.
Context {py : PyBuiltins}.

(** The pairs of a mapping before any quoting. *)
Definition raw_pairs (d : dict) : list (string * string) :=
  flat_map (fun kv => map (fun t => (fst kv, t)) (value_texts (snd kv))) d.

End RawPairs.

(** A value that is neither a list nor a nested mapping. *)
Definition scalar (v : json) : bool :=
  match v with
  | JList _ | JDict _ => false
  | _ => true
  end.

(** What [quote_plus] writes for one octet. *)
Definition quote_plus_char (c : ascii) : list ascii :=
  if Ascii.eqb c " " then ["+"%char] else chars (quoter "" c).

Definition printable (c : ascii) : bool :=
  (32 <=? nat_of_ascii c)%nat && (nat_of_ascii c <=? 126)%nat.

Definition unreserved (s : string) : Prop :=
  Forall (fun c => mem_char c always_safe = true) (chars s).

Definition printable_text (s : string) : Prop :=
  Forall (fun c => printable c = true) (chars s).

Section SameTexts.
Context {py : PyBuiltins}.

(** Two mappings with the same keys and, field by field, the same texts. *)
Definition same_texts (d1 d2 : dict) : Prop :=
  Forall2 (fun a b => fst a = fst b
                      /\ value_texts (snd a) = value_texts (snd b)) d1 d2.

End SameTexts.

(** A call that is a request, not the finalizer. *)
Definition is_request {codec : Codec} (c : call) : bool := negb (is_del c).

Definition paged_request (limit : string) : dict :=
  [("address", JStr "fetch1abc"); ("pagination", JDict [("limit", JStr limit)])].

Definition height_request : dict :=
  [("height", JInt 42); ("prove", JBool true); ("chain", JNone)].

(** * Properties *)

Lemma nodupb_NoDup (l : list string) : nodupb l = true -> NoDup l.
Proof.
  induction l as [|x r IH]; simpl; intros H.
  - constructor.
  - apply andb_prop in H. destruct H as [Hx Hr].
    constructor; [|auto].
    intros Hin. apply negb_true_iff in Hx.
    assert (existsb (String.eqb x) r = true) as E.
    { apply existsb_exists. exists x. split; [exact Hin|apply String.eqb_refl]. }
    congruence.
Qed.

Lemma MessageToDict_NoDup {codec : Codec} (m : Message) :
  dict_wf (MessageToDict m).
Proof. apply nodupb_NoDup. apply MessageToDict_wf. Qed.

(** ** [dict.pop] and the removal loop *)

Section PopFacts.

Lemma filter_not_key_absent (k : string) (d : dict) :
  ~ In k (keys d) -> filter (not_key k) d = d.
Proof.
  induction d as [|[k0 v0] r IH]; simpl; intros H; [reflexivity|].
  unfold not_key at 1; simpl.
  destruct (String.eqb_spec k0 k) as [->|Hne]; simpl.
  - exfalso. apply H. now left.
  - f_equal. apply IH. intros Hin. apply H. now right.
Qed.

Lemma keys_filter_subset (f : string * json -> bool) (d : dict) (k : string) :
  In k (keys (filter f d)) -> In k (keys d).
Proof.
  unfold keys. rewrite !in_map_iff.
  intros [kv [E Hin]]. apply filter_In in Hin. exists kv. tauto.
Qed.

Lemma filter_wf (f : string * json -> bool) (d : dict) :
  dict_wf d -> dict_wf (filter f d).
Proof.
  unfold dict_wf.
  induction d as [|[k0 v0] r IH]; simpl; intros H; [constructor|].
  inversion H as [|? ? Hk Hr]; subst.
  destruct (f (k0, v0)); simpl; [constructor|]; auto.
  intros Hin. apply Hk. eapply keys_filter_subset. exact Hin.
Qed.

Lemma pop_absent (k : string) (d : dict) :
  ~ In k (keys d) -> pop k d = inl (KeyError k).
Proof.
  induction d as [|[k0 v0] r IH]; simpl; intros H; [reflexivity|].
  destruct (String.eqb_spec k0 k) as [->|Hne].
  - exfalso. apply H. now left.
  - rewrite IH; [reflexivity|]. intros Hin. apply H. now right.
Qed.

Lemma pop_present (k : string) (d : dict) :
  In k (keys d) -> exists v d', pop k d = inr (v, d').
Proof.
  induction d as [|[k0 v0] r IH]; simpl; intros H; [contradiction|].
  destruct (String.eqb_spec k0 k) as [->|Hne].
  - eauto.
  - destruct H as [H|H]; [congruence|].
    destruct (IH H) as [v [d' E]]. rewrite E. eauto.
Qed.

Lemma pop_inl (k : string) (d : dict) (e : exception) :
  pop k d = inl e -> e = KeyError k /\ ~ In k (keys d).
Proof.
  intros E. destruct (in_dec string_dec k (keys d)) as [Hin|Hnin].
  - destruct (pop_present k d Hin) as [v [d' E']]. congruence.
  - rewrite (pop_absent k d Hnin) in E. split; [congruence|exact Hnin].
Qed.

(** A successful [pop] finds the key and leaves the other items in place. *)
Lemma pop_inr (k : string) (d d' : dict) (v : json) :
  dict_wf d -> pop k d = inr (v, d') ->
  In (k, v) d /\ d' = filter (not_key k) d.
Proof.
  unfold dict_wf.
  revert d' v. induction d as [|[k0 v0] r IH]; simpl; intros d' v Hwf E.
  - discriminate.
  - inversion Hwf as [|? ? Hk Hr]; subst.
    unfold not_key at 1; simpl.
    destruct (String.eqb_spec k0 k) as [->|Hne]; simpl.
    + inversion E; subst. split; [now left|].
      symmetry. now apply filter_not_key_absent.
    + destruct (pop k r) as [e|[x r']] eqn:Er; [discriminate|].
      inversion E; subst.
      destruct (IH r' v Hr eq_refl) as [Hin Hf].
      split; [now right|]. now rewrite Hf.
Qed.

Lemma not_key_filter_absent (k : string) (d : dict) :
  ~ In k (keys (filter (not_key k) d)).
Proof.
  unfold keys. rewrite in_map_iff. intros [[k0 v0] [E Hin]].
  simpl in E. subst k0. apply filter_In in Hin. destruct Hin as [_ Hf].
  unfold not_key in Hf. simpl in Hf. now rewrite String.eqb_refl in Hf.
Qed.

Lemma filter_not_key_not_listed (k : string) (ps : list string) (d : dict) :
  filter (not_listed ps) (filter (not_key k) d) = filter (not_listed (k :: ps)) d.
Proof.
  induction d as [|[k0 v0] r IH]; simpl; [reflexivity|].
  unfold not_key at 1, not_listed at 2. simpl.
  destruct (String.eqb k0 k); simpl; [exact IH|].
  unfold not_listed at 1. simpl.
  destruct (existsb (String.eqb k0) ps); simpl; [exact IH|].
  now rewrite IH.
Qed.

Lemma filter_not_listed_nil (d : dict) : filter (not_listed []) d = d.
Proof.
  induction d as [|x r IHr]; [reflexivity|].
  change (filter (not_listed []) (x :: r)) with (x :: filter (not_listed []) r).
  now rewrite IHr.
Qed.

(** When the loop goes through, the keys listed were all there, none was
    listed twice, and what is left is the mapping without them, in its
    order. *)
Lemma pop_params_inr (ps : list string) (d d' : dict) :
  dict_wf d -> pop_params ps d = inr d' ->
  d' = filter (not_listed ps) d /\ NoDup ps /\ incl ps (keys d).
Proof.
  revert d d'. induction ps as [|p ps IH]; simpl; intros d d' Hwf E.
  - inversion E; subst. split; [|split].
    + symmetry. apply filter_not_listed_nil.
    + constructor.
    + intros x [].
  - destruct (pop p d) as [e|[v d1]] eqn:Ep; [discriminate|].
    destruct (pop_inr p d d1 v Hwf Ep) as [Hin Hd1].
    assert (dict_wf d1) as Hwf1 by (subst d1; now apply filter_wf).
    destruct (IH d1 d' Hwf1 E) as [Hd' [Hnd Hincl]].
    split; [|split].
    + subst d1. now rewrite filter_not_key_not_listed in Hd'.
    + constructor; [|exact Hnd].
      intros Hp. apply Hincl in Hp. subst d1.
      exact (not_key_filter_absent p d Hp).
    + intros x [<-|Hx].
      * unfold keys. apply in_map_iff. exists (p, v). auto.
      * apply Hincl in Hx. subst d1. eapply keys_filter_subset. exact Hx.
Qed.

(** When the loop stops, it is on a listed key with [KeyError] of it. *)
Lemma pop_params_inl (ps : list string) (d : dict) (e : exception) :
  pop_params ps d = inl e -> exists k, In k ps /\ e = KeyError k.
Proof.
  revert d. induction ps as [|p ps IH]; simpl; intros d E; [discriminate|].
  destruct (pop p d) as [e'|[v d1]] eqn:Ep.
  - apply pop_inl in Ep. destruct Ep as [-> _].
    exists p. split; [now left|congruence].
  - destruct (IH d1 E) as [k [Hk He]]. exists k. split; [now right|exact He].
Qed.

Lemma not_listed_keys (ps : list string) (d : dict) (k : string) :
  In k (keys (filter (not_listed ps) d)) <-> In k (keys d) /\ ~ In k ps.
Proof.
  unfold keys. rewrite !in_map_iff. split.
  - intros [[k0 v0] [E Hin]]. simpl in E. subst k0.
    apply filter_In in Hin. destruct Hin as [Hin Hf]. split.
    + exists (k, v0). auto.
    + intros Hk. unfold not_listed in Hf. simpl in Hf.
      apply negb_true_iff in Hf.
      assert (existsb (String.eqb k) ps = true) as E.
      { apply existsb_exists. exists k. split; [exact Hk|apply String.eqb_refl]. }
      congruence.
  - intros [[[k0 v0] [E Hin]] Hk]. simpl in E. subst k0.
    exists (k, v0). split; [reflexivity|].
    apply filter_In. split; [exact Hin|].
    unfold not_listed. simpl. apply negb_true_iff.
    destruct (existsb (String.eqb k) ps) eqn:Ex; [|reflexivity].
    apply existsb_exists in Ex. destruct Ex as [x [Hx Hxe]].
    apply String.eqb_eq in Hxe. subst x. contradiction.
Qed.

(** The loop goes through exactly when every listed key is in the
    mapping and none is listed twice. *)
Lemma pop_params_complete (ps : list string) (d : dict) :
  dict_wf d -> NoDup ps -> incl ps (keys d) ->
  pop_params ps d = inr (filter (not_listed ps) d).
Proof.
  revert d. induction ps as [|p ps IH]; simpl; intros d Hwf Hnd Hincl.
  - f_equal. symmetry. apply filter_not_listed_nil.
  - inversion Hnd as [|? ? Hp Hps]; subst.
    destruct (pop_present p d (Hincl p (or_introl eq_refl))) as [v [d1 Ep]].
    rewrite Ep. destruct (pop_inr p d d1 v Hwf Ep) as [_ Hd1]. subst d1.
    rewrite IH.
    + now rewrite filter_not_key_not_listed.
    + now apply filter_wf.
    + exact Hps.
    + intros x Hx. 
      assert (In x (keys d)) as Hxd by (apply Hincl; now right).
      unfold keys in *. apply in_map_iff in Hxd. destruct Hxd as [[k0 v0] [E Hin]].
      simpl in E. subst k0. apply in_map_iff. exists (x, v0). split; [reflexivity|].
      apply filter_In. split; [exact Hin|]. unfold not_key. simpl.
      apply negb_true_iff. apply String.eqb_neq. intros ->. contradiction.
Qed.

End PopFacts.

(** ** Strings *)

Lemma append_assoc (a b c : string) : (a ++ b) ++ c = a ++ (b ++ c).
Proof.
  induction a as [|x a IH]; simpl; [reflexivity|]. now rewrite IH.
Qed.

(** ** What one call does *)

Section Runs.
Context {py : PyBuiltins} {transport : Transport} {codec : Codec}.

(** [get] either stops while it builds the URL, with nothing sent, or
    issues one request and looks at the status of the answer. *)
Lemma get_run (st : state) (url_base_path : string)
    (request : option Message) (used_params : option (list string)) :
  get url_base_path request used_params st =
  match get_url (rest_address (self st)) url_base_path request used_params with
  | inl e => (inl e, st)
  | inr url =>
      let rq := get_request st url in
      match send (net st) rq with
      | inl msg => (inl (RequestException msg), after_request st rq)
      | inr response =>
          if (status_code response =? 200)%Z
          then (inr (content response), after_request st rq)
          else (inl (RuntimeError (get_error response)), after_request st rq)
      end
  end.
Proof.
  unfold get, bind, self_rest_address, self_session, Session_get,
    Session_request, lift, raise, ret, after_request, get_request.
  destruct (get_url _ _ _ _) as [e|url]; simpl; [reflexivity|].
  destruct (send _ _) as [msg|response]; simpl; [reflexivity|].
  destruct (status_code response =? 200)%Z; reflexivity.
Qed.

Lemma post_run (st : state) (url_base_path : string) (request : Message) :
  post url_base_path request st =
  let rq := post_request st url_base_path request in
  match send (net st) rq with
  | inl msg => (inl (RequestException msg), after_request st rq)
  | inr response =>
      if (status_code response =? 200)%Z
      then (inr (content response), after_request st rq)
      else (inl (RuntimeError (post_error (MessageToDict request) response)),
            after_request st rq)
  end.
Proof.
  unfold post, bind, self_rest_address, self_session, Session_post,
    Session_request, raise, ret, after_request, post_request, post_headers.
  simpl.
  destruct (send _ _) as [msg|response]; simpl; [reflexivity|].
  destruct (status_code response =? 200)%Z; reflexivity.
Qed.

Lemma del_run (st : state) :
  __del__ st =
  (inr tt,
   {| self := self st; net := record_close (_session (self st)) (net st) |}).
Proof. reflexivity. Qed.

Lemma get_error_status (response : Response) :
  occurs_in (int_str (status_code response)) (get_error response).
Proof.
  exists ("Error when sending a GET request." ++ nl ++ " Response: "),
         (", " ++ bytes_repr (content response) ++ ")").
  unfold get_error. now rewrite !append_assoc.
Qed.

Lemma get_error_content (response : Response) :
  occurs_in (bytes_repr (content response)) (get_error response).
Proof.
  exists ("Error when sending a GET request." ++ nl ++ " Response: "
          ++ int_str (status_code response) ++ ", "), ")".
  unfold get_error. now rewrite !append_assoc.
Qed.

Lemma post_error_status (json_request : dict) (response : Response) :
  occurs_in (int_str (status_code response)) (post_error json_request response).
Proof.
  exists ("Error when sending a POST request." ++ nl ++ " Request: "
          ++ py_str (JDict json_request) ++ nl ++ " Response: "),
         (", " ++ bytes_repr (content response) ++ ")").
  unfold post_error. now rewrite !append_assoc.
Qed.

Lemma post_error_content (json_request : dict) (response : Response) :
  occurs_in (bytes_repr (content response)) (post_error json_request response).
Proof.
  exists ("Error when sending a POST request." ++ nl ++ " Request: "
          ++ py_str (JDict json_request) ++ nl ++ " Response: "
          ++ int_str (status_code response) ++ ", "), ")".
  unfold post_error. now rewrite !append_assoc.
Qed.

Lemma post_error_request (json_request : dict) (response : Response) :
  occurs_in (py_str (JDict json_request)) (post_error json_request response).
Proof.
  exists ("Error when sending a POST request." ++ nl ++ " Request: "),
         (nl ++ " Response: " ++ int_str (status_code response) ++ ", "
          ++ bytes_repr (content response) ++ ")").
  unfold post_error. now rewrite !append_assoc.
Qed.

End Runs.

(** ** The status check *)

Section Status.
Context {py : PyBuiltins} {transport : Transport} {codec : Codec}.

(** C1.  Whenever the answer to the request has a status code other than
    200, [get] and [post] raise [RuntimeError]; no other status counts as
    a success.  The message holds the status code in decimal and the
    [str] of the body, and for [post] also the [str] of the encoded
    request mapping. *)
Theorem non_200_raises_RuntimeError (response : Response) :
  status_code response <> 200%Z ->
  (forall st url_base_path request used_params url,
      get_url (rest_address (self st)) url_base_path request used_params
        = inr url ->
      send (net st) (get_request st url) = inr response ->
      fst (get url_base_path request used_params st)
        = inl (RuntimeError (get_error response)))
  /\ (forall st url_base_path request,
      send (net st) (post_request st url_base_path request) = inr response ->
      fst (post url_base_path request st)
        = inl (RuntimeError (post_error (MessageToDict request) response)))
  /\ occurs_in (int_str (status_code response)) (get_error response)
  /\ occurs_in (bytes_repr (content response)) (get_error response)
  /\ (forall json_request,
      occurs_in (int_str (status_code response))
        (post_error json_request response)
      /\ occurs_in (bytes_repr (content response))
           (post_error json_request response)
      /\ occurs_in (py_str (JDict json_request))
           (post_error json_request response)).
Proof.
  intros Hstatus.
  assert ((status_code response =? 200)%Z = false) as Hb
    by now apply Z.eqb_neq.
  split; [|split; [|split; [|split]]].
  - intros st url_base_path request used_params url Hurl Hsend.
    rewrite get_run, Hurl. simpl. now rewrite Hsend, Hb.
  - intros st url_base_path request Hsend.
    rewrite post_run. simpl. now rewrite Hsend, Hb.
  - apply get_error_status.
  - apply get_error_content.
  - intros json_request. split; [|split].
    + apply post_error_status.
    + apply post_error_content.
    + apply post_error_request.
Qed.

(** C4.  Whenever the answer to the request has status code 200, [get]
    and [post] return its body, the very [bytes] the transport gave. *)
Theorem status_200_returns_content (response : Response) :
  status_code response = 200%Z ->
  (forall st url_base_path request used_params url,
      get_url (rest_address (self st)) url_base_path request used_params
        = inr url ->
      send (net st) (get_request st url) = inr response ->
      fst (get url_base_path request used_params st)
        = inr (content response))
  /\ (forall st url_base_path request,
      send (net st) (post_request st url_base_path request) = inr response ->
      fst (post url_base_path request st) = inr (content response)).
Proof.
  intros Hstatus.
  assert ((status_code response =? 200)%Z = true) as Hb
    by now apply Z.eqb_eq.
  split.
  - intros st url_base_path request used_params url Hurl Hsend.
    rewrite get_run, Hurl. simpl. now rewrite Hsend, Hb.
  - intros st url_base_path request Hsend.
    rewrite post_run. simpl. now rewrite Hsend, Hb.
Qed.

(** C6.  [post] issues exactly one request, whatever comes back: a POST
    through the object's session to the base address followed by the
    path, nothing appended, with the mapping [MessageToDict] made of the
    request as its JSON payload and the two JSON headers. *)
Theorem post_issues_one_json_request (st : state) (url_base_path : string)
    (request : Message) :
  let st' := snd (post url_base_path request st) in
  sent (net st') =
    {| rq_session := _session (self st);
       rq_method := POST;
       rq_url := rest_address (self st) ++ url_base_path;
       rq_json := Some (MessageToDict request);
       rq_headers :=
         [("Content-type", "application/json");
          ("Accept", "application/json")] |} :: sent (net st)
  /\ sessions (net st') = sessions (net st)
  /\ closed (net st') = closed (net st).
Proof.
  rewrite post_run. simpl.
  destruct (send _ _) as [msg|response]; simpl.
  - repeat split.
  - destruct (status_code response =? 200)%Z; repeat split.
Qed.

(** C9.  With no request object [get] never looks at [used_params]: the
    call does the same whatever the list is, no key is popped and no
    [KeyError] comes out, and the one request issued goes to the base
    address followed by the path. *)
Theorem get_without_request_ignores_used_params (st : state)
    (url_base_path : string) (used_params : option (list string)) :
  get url_base_path None used_params st = get url_base_path None None st
  /\ get_url (rest_address (self st)) url_base_path None used_params
       = inr (rest_address (self st) ++ url_base_path)
  /\ (forall key,
      fst (get url_base_path None used_params st) <> inl (KeyError key))
  /\ sent (net (snd (get url_base_path None used_params st)))
       = get_request st (rest_address (self st) ++ url_base_path)
           :: sent (net st).
Proof.
  split; [reflexivity|]. split; [reflexivity|].
  rewrite get_run. simpl.
  destruct (send _ _) as [msg|response]; simpl.
  - split; [discriminate|reflexivity].
  - destruct (status_code response =? 200)%Z; simpl;
      (split; [discriminate|reflexivity]).
Qed.

End Status.

(** ** The session over the life of the object *)

Section Lifecycle.
Context {py : PyBuiltins} {transport : Transport} {codec : Codec}.

Lemma get_effect (st : state) url_base_path request used_params :
  effect st (snd (get url_base_path request used_params st))
  /\ closed (net (snd (get url_base_path request used_params st)))
     = closed (net st).
Proof.
  rewrite get_run.
  destruct (get_url _ _ _ _) as [e|url]; simpl.
  - split; [constructor|reflexivity].
  - destruct (send _ _) as [msg|response]; simpl.
    + split; [now constructor|reflexivity].
    + destruct (status_code response =? 200)%Z; simpl;
        (split; [now constructor|reflexivity]).
Qed.

Lemma post_effect (st : state) url_base_path request :
  effect st (snd (post url_base_path request st))
  /\ closed (net (snd (post url_base_path request st))) = closed (net st).
Proof.
  rewrite post_run. simpl.
  destruct (send _ _) as [msg|response]; simpl.
  - split; [now constructor|reflexivity].
  - destruct (status_code response =? 200)%Z; simpl;
      (split; [now constructor|reflexivity]).
Qed.

Lemma run_call_effect (c : call) (st : state) : effect st (run_call c st).
Proof.
  destruct c; unfold run_call.
  - apply get_effect.
  - apply post_effect.
  - rewrite del_run. simpl. constructor.
Qed.

Lemma run_call_closed (c : call) (st : state) :
  closed (net (run_call c st)) =
  if is_del c then _session (self st) :: closed (net st)
  else closed (net st).
Proof.
  destruct c; unfold run_call, is_del.
  - apply get_effect.
  - apply post_effect.
  - reflexivity.
Qed.

Lemma since_refl (st : state) : since st st.
Proof.
  split; [reflexivity|]. split; [reflexivity|].
  exists []. split; [reflexivity|constructor].
Qed.

Lemma since_effect (st0 st st' : state) :
  since st0 st -> effect st st' -> since st0 st'.
Proof.
  intros [Hself [Hn [new [Hsent Hall]]]] He.
  destruct He as [|rq Hrq|]; simpl.
  - now repeat split; eauto.
  - split; [exact Hself|]. split; [exact Hn|].
    exists (rq :: new). simpl. split; [now rewrite Hsent|].
    constructor; [congruence|exact Hall].
  - split; [exact Hself|]. split; [exact Hn|].
    exists new. now split.
Qed.

Lemma run_calls_since (cs : list call) (st0 st : state) :
  since st0 st -> since st0 (run_calls cs st).
Proof.
  revert st. induction cs as [|c cs IH]; simpl; intros st H; [exact H|].
  apply IH. eapply since_effect; [exact H|apply run_call_effect].
Qed.

Lemma run_calls_self (cs : list call) (st : state) :
  self (run_calls cs st) = self st.
Proof. apply (run_calls_since cs st st (since_refl st)). Qed.

Lemma repeat_app_cons {A} (a : A) (n : nat) (l : list A) :
  (repeat a n ++ a :: l = a :: repeat a n ++ l)%list.
Proof.
  induction n as [|n IH]; simpl; [reflexivity|]. now rewrite IH.
Qed.

Lemma run_calls_closed (cs : list call) (st : state) :
  closed (net (run_calls cs st)) =
  (repeat (_session (self st)) (length (filter is_del cs))
   ++ closed (net st))%list.
Proof.
  revert st. induction cs as [|c cs IH]; simpl; intros st; [reflexivity|].
  rewrite IH, run_call_closed.
  assert (self (run_call c st) = self st) as ->
    by apply (run_calls_self [c] st).
  destruct (is_del c); simpl; [|reflexivity].
  apply repeat_app_cons.
Qed.

(** C7.  Construction creates exactly one session, a new one, and keeps
    the address it is given; after any sequence of [get], [post] and
    [__del__] calls no further session exists, the object still holds
    that session and that base address, and every request issued went
    through that session.  And the session is used: whatever calls came
    before, a [post] hands exactly one request to that very session, at
    the configured address followed by the path, and so does a [get]
    whose URL is built; neither creates a session. *)
Theorem one_session_reused_address_kept (address : string) (w : world)
    (cs : list call) :
  let st0 := __init__ address w in
  let st := run_calls cs st0 in
  sessions (net st0) = S (sessions w)
  /\ _session (self st0) = sessions w
  /\ rest_address (self st0) = address
  /\ sessions (net st) = sessions (net st0)
  /\ _session (self st) = _session (self st0)
  /\ rest_address (self st) = address
  /\ (exists new,
       sent (net st) = (new ++ sent w)%list
       /\ Forall (fun rq => rq_session rq = _session (self st0)) new)
  /\ (forall url_base_path request,
      sent (net (snd (post url_base_path request st)))
        = {| rq_session := sessions w;
             rq_method := POST;
             rq_url := address ++ url_base_path;
             rq_json := Some (MessageToDict request);
             rq_headers :=
               [("Content-type", "application/json");
                ("Accept", "application/json")] |} :: sent (net st)
      /\ sessions (net (snd (post url_base_path request st)))
         = S (sessions w))
  /\ (forall url_base_path request used_params url,
      get_url address url_base_path request used_params = inr url ->
      sent (net (snd (get url_base_path request used_params st)))
        = {| rq_session := sessions w;
             rq_method := GET;
             rq_url := url;
             rq_json := None;
             rq_headers := [] |} :: sent (net st)
      /\ sessions (net (snd (get url_base_path request used_params st)))
         = S (sessions w)).
Proof.
  intros st0 st.
  destruct (run_calls_since cs st0 st0 (since_refl st0))
    as [Hself [Hn Hsent]].
  fold st in Hself, Hn, Hsent.
  assert (_session (self st) = sessions w) as Hs by now rewrite Hself.
  assert (rest_address (self st) = address) as Ha by now rewrite Hself.
  split; [reflexivity|]. split; [reflexivity|]. split; [reflexivity|].
  split; [exact Hn|]. split; [now rewrite Hself|]. split; [exact Ha|].
  split; [exact Hsent|]. split.
  - intros url_base_path request.
    rewrite post_run. cbv zeta. unfold post_request. rewrite Hs, Ha.
    destruct (send _ _) as [msg|response]; simpl.
    + split; [reflexivity|exact Hn].
    + destruct (status_code response =? 200)%Z; simpl;
        (split; [reflexivity|exact Hn]).
  - intros url_base_path request used_params url Hurl.
    rewrite get_run, Ha, Hurl. cbv zeta. unfold get_request. rewrite Hs.
    destruct (send _ _) as [msg|response]; simpl.
    + split; [reflexivity|exact Hn].
    + destruct (status_code response =? 200)%Z; simpl;
        (split; [reflexivity|exact Hn]).
Qed.

(** C8, as the code has it.  The class has no method called [close]: it
    has [__init__], [get], [post] and the finalizer [__del__].  Each run
    of [__del__] closes the session of the object once and touches
    nothing else; [get] and [post] close nothing, whether they return or
    raise.  So over any sequence of calls the session is closed as many
    times as [__del__] runs. *)
Theorem session_closed_by_del_only :
  RestClient_methods = ["__init__"; "get"; "post"; "__del__"]
  /\ ~ In "close" RestClient_methods
  /\ (forall st,
      __del__ st =
      (inr tt,
       {| self := self st;
          net := {| sessions := sessions (net st);
                    closed := _session (self st) :: closed (net st);
                    sent := sent (net st) |} |}))
  /\ (forall st url_base_path request used_params,
      closed (net (snd (get url_base_path request used_params st)))
        = closed (net st))
  /\ (forall st url_base_path request,
      closed (net (snd (post url_base_path request st))) = closed (net st))
  /\ (forall cs st,
      closed (net (run_calls cs st)) =
      (repeat (_session (self st)) (length (filter is_del cs))
         ++ closed (net st))%list).
Proof.
  split; [reflexivity|]. split.
  - simpl. intros [H|[H|[H|[H|[]]]]]; discriminate.
  - split; [reflexivity|]. split; [|split].
    + intros. apply get_effect.
    + intros. apply post_effect.
    + apply run_calls_closed.
Qed.

End Lifecycle.

(** ** The exclusion list *)

Section Exclusion.
Context {py : PyBuiltins} {transport : Transport} {codec : Codec}.

Lemma pop_params_app (a b : list string) (d : dict) :
  pop_params (a ++ b)%list d =
  match pop_params a d with
  | inl e => inl e
  | inr d' => pop_params b d'
  end.
Proof.
  revert d. induction a as [|p a IH]; simpl; intros d; [reflexivity|].
  destruct (pop p d) as [e|[v d1]]; [reflexivity|apply IH].
Qed.

(** A [KeyError] of the loop leaves [get] before anything is sent. *)
Lemma get_KeyError (st : state) url_base_path request used_params e :
  pop_params used_params (MessageToDict request) = inl e ->
  get url_base_path (Some request) (Some used_params) st = (inl e, st).
Proof.
  intros E. rewrite get_run. unfold get_url, remove_used_params.
  now rewrite E.
Qed.

(** C10.  The keys are popped one after the other, so a key listed twice
    always makes [get] raise [KeyError] with nothing sent; and when the
    loop gets past the first occurrence, which takes the key out of the
    mapping it was in, it is the second occurrence that raises, with
    [KeyError] of that key. *)
Theorem used_param_listed_twice_raises (st : state) (url_base_path : string)
    (request : Message) (l1 l2 l3 : list string) (key : string) :
  let used_params := (l1 ++ key :: l2 ++ key :: l3)%list in
  (exists key',
      In key' used_params
      /\ get url_base_path (Some request) (Some used_params) st
         = (inl (KeyError key'), st))
  /\ (forall json_request,
      pop_params (l1 ++ key :: l2)%list (MessageToDict request)
        = inr json_request ->
      In key (keys (MessageToDict request))
      /\ ~ In key (keys json_request)
      /\ get url_base_path (Some request) (Some used_params) st
         = (inl (KeyError key), st)).
Proof.
  intros used_params.
  assert (forall json_request,
      pop_params (l1 ++ key :: l2)%list (MessageToDict request)
        = inr json_request ->
      In key (keys (MessageToDict request))
      /\ ~ In key (keys json_request)
      /\ pop_params used_params (MessageToDict request)
         = inl (KeyError key)) as Hsecond.
  { intros json_request E.
    destruct (pop_params_inr _ _ _ (MessageToDict_NoDup request) E)
      as [Hd [_ Hincl]].
    assert (In key (l1 ++ key :: l2)%list) as Hkey
      by (apply in_or_app; right; now left).
    assert (~ In key (keys json_request)) as Hgone
      by (rewrite Hd, not_listed_keys; tauto).
    split; [now apply Hincl|]. split; [exact Hgone|].
    unfold used_params.
    replace (l1 ++ key :: l2 ++ key :: l3)%list
      with ((l1 ++ key :: l2) ++ key :: l3)%list
      by (rewrite <- app_assoc; reflexivity).
    rewrite pop_params_app, E. simpl.
    now rewrite (pop_absent key json_request Hgone). }
  split.
  - destruct (pop_params used_params (MessageToDict request))
      as [e|d'] eqn:E.
    + destruct (pop_params_inl _ _ _ E) as [key' [Hin ->]].
      exists key'. split; [exact Hin|]. now apply get_KeyError.
    + exfalso.
      destruct (pop_params_inr _ _ _ (MessageToDict_NoDup request) E)
        as [_ [Hnd _]].
      unfold used_params in Hnd. apply NoDup_remove_2 in Hnd.
      apply Hnd. apply in_or_app. right. apply in_or_app. right. now left.
  - intros json_request E.
    destruct (Hsecond json_request E) as [Hin [Hgone Hpop]].
    split; [exact Hin|]. split; [exact Hgone|]. now apply get_KeyError.
Qed.

End Exclusion.

(** ** Quoting and the shape of the query string *)

Section Quoting.

Lemma chars_app (a b : string) : chars (a ++ b) = (chars a ++ chars b)%list.
Proof.
  induction a as [|x a IH]; simpl; [reflexivity|]. now rewrite IH.
Qed.

Lemma chars_concat_empty (l : list string) :
  chars (String.concat "" l) = List.concat (map chars l).
Proof.
  induction l as [|x l IH]; [reflexivity|].
  destruct l as [|y l].
  - simpl. now rewrite app_nil_r.
  - change (String.concat "" (x :: y :: l))
      with (x ++ "" ++ String.concat "" (y :: l)).
    rewrite chars_app.
    change ("" ++ String.concat "" (y :: l)) with (String.concat "" (y :: l)).
    rewrite IH. reflexivity.
Qed.

Lemma mem_char_In (c : ascii) (s : string) :
  mem_char c s = true -> In c (chars s).
Proof.
  unfold mem_char. intros H. apply existsb_exists in H.
  destruct H as [x [Hx E]]. apply Ascii.eqb_eq in E. now subst x.
Qed.

Lemma hexdigit_upper_plain (n : nat) :
  plain (hexdigit hexdigits_upper n) = true.
Proof.
  do 16 (destruct n as [|n]; [reflexivity|]). reflexivity.
Qed.

Lemma quoter_chars (safe : string) (c : ascii) :
  Forall (fun x => plain x = true \/ In x (chars safe))
         (chars (quoter safe c)).
Proof.
  unfold quoter.
  destruct (mem_char c always_safe) eqn:Ea; simpl.
  - constructor; [|constructor]. left. unfold plain. now rewrite Ea.
  - destruct (mem_char c safe) eqn:Es; simpl.
    + constructor; [|constructor]. right. now apply mem_char_In.
    + repeat constructor; apply hexdigit_upper_plain.
Qed.

Lemma quote_chars (safe s : string) :
  Forall (fun x => plain x = true \/ In x (chars safe)) (chars (quote safe s)).
Proof.
  unfold quote. rewrite chars_concat_empty.
  induction (chars s) as [|c l IH]; simpl; [constructor|].
  apply Forall_app. split; [apply quoter_chars|exact IH].
Qed.

Lemma replace_char_chars (old new : ascii) (s : string) :
  chars (replace_char old new s) =
  map (fun c => if Ascii.eqb c old then new else c) (chars s).
Proof.
  unfold replace_char. apply list_ascii_of_string_of_list_ascii.
Qed.

(** [quote_plus] writes letters, digits, [_.-~], [%] and [+] only. *)
Lemma quote_plus_clean (s : string) : clean (quote_plus s).
Proof.
  unfold clean, quote_plus.
  destruct (mem_char " " s); simpl.
  - rewrite replace_char_chars. apply Forall_map.
    eapply Forall_impl; [|apply quote_chars].
    intros x [Hx|Hx]; simpl.
    + destruct (Ascii.eqb x " "); [reflexivity|exact Hx].
    + destruct Hx as [<-|[]]. reflexivity.
  - eapply Forall_impl; [|apply quote_chars].
    intros x [Hx|[]]. exact Hx.
Qed.

Lemma clean_without (s : string) (c : ascii) :
  clean s -> plain c = false -> ~ In c (chars s).
Proof.
  unfold clean. intros H Hc Hin.
  rewrite Forall_forall in H. specialize (H c Hin). congruence.
Qed.

(** *** Splitting *)

Lemma split_chars_one (sep : ascii) (w : list ascii) :
  ~ In sep w -> split_chars sep w = [w].
Proof.
  induction w as [|c w IH]; simpl; intros H; [reflexivity|].
  destruct (Ascii.eqb_spec c sep) as [->|Hne].
  - exfalso. apply H. now left.
  - rewrite IH; [reflexivity|]. intros Hin. apply H. now right.
Qed.

Lemma split_chars_app (sep : ascii) (w rest : list ascii) :
  ~ In sep w ->
  split_chars sep (w ++ sep :: rest) = w :: split_chars sep rest.
Proof.
  induction w as [|c w IH]; simpl; intros H.
  - now rewrite Ascii.eqb_refl.
  - destruct (Ascii.eqb_spec c sep) as [->|Hne].
    + exfalso. apply H. now left.
    + rewrite IH; [reflexivity|]. intros Hin. apply H. now right.
Qed.

Lemma partition_chars_app (sep : ascii) (a b : list ascii) :
  ~ In sep a -> partition_chars sep (a ++ sep :: b) = (a, b).
Proof.
  induction a as [|c a IH]; simpl; intros H.
  - now rewrite Ascii.eqb_refl.
  - destruct (Ascii.eqb_spec c sep) as [->|Hne].
    + exfalso. apply H. now left.
    + rewrite IH; [reflexivity|]. intros Hin. apply H. now right.
Qed.

Lemma split_concat (x : string) (l : list string) :
  Forall (fun s => ~ In "&"%char (chars s)) (x :: l) ->
  split_chars "&" (chars (String.concat "&" (x :: l))) = map chars (x :: l).
Proof.
  revert x. induction l as [|y l IH]; intros x H.
  - simpl. apply split_chars_one. now inversion H.
  - change (String.concat "&" (x :: y :: l))
      with (x ++ "&" ++ String.concat "&" (y :: l)).
    inversion H as [|? ? Hx Hl]; subst.
    rewrite chars_app.
    change (chars ("&" ++ String.concat "&" (y :: l)))
      with ("&"%char :: chars (String.concat "&" (y :: l))).
    rewrite split_chars_app by exact Hx.
    rewrite (IH y Hl). reflexivity.
Qed.

Lemma pair_text_not_empty (p : string * string) :
  exists c s, pair_text p = String c s.
Proof.
  unfold pair_text. destruct (fst p) as [|c s]; simpl; eauto.
Qed.

Lemma concat_not_empty (sep x : string) (l : list string) :
  (exists c s, x = String c s) ->
  exists c s, String.concat sep (x :: l) = String c s.
Proof.
  intros [c [s ->]]. destruct l; simpl; eauto.
Qed.

Lemma concat_empty_iff (l : list string) :
  (forall s, In s l -> s <> "") ->
  (String.concat "&" l = "" <-> l = []).
Proof.
  intros H. split; [|now intros ->].
  destruct l as [|x l]; [reflexivity|]. intros E. exfalso.
  assert (x <> "") as Hx by (apply H; now left).
  destruct x as [|c s]; [congruence|].
  destruct l; simpl in E; discriminate.
Qed.

(** Reading back a query string made of clean pairs gives the pairs. *)
Lemma query_pairs_concat (ps : list (string * string)) :
  Forall (fun p => clean (fst p) /\ clean (snd p)) ps ->
  query_pairs (String.concat "&" (map pair_text ps)) = ps.
Proof.
  intros H. destruct ps as [|p ps]; [reflexivity|].
  destruct (concat_not_empty "&" (pair_text p) (map pair_text ps)
              (pair_text_not_empty p)) as [c [s E]].
  change (map pair_text (p :: ps)) with (pair_text p :: map pair_text ps).
  unfold query_pairs. rewrite E. rewrite <- E.
  rewrite split_concat.
  - change (pair_text p :: map pair_text ps) with (map pair_text (p :: ps)).
    rewrite !map_map.
    rewrite <- (map_id (p :: ps)) at 2.
    apply map_ext_in. intros [a b] Hin.
    rewrite Forall_forall in H. destruct (H _ Hin) as [Ha _]. simpl in Ha.
    unfold pair_text. simpl fst. simpl snd.
    rewrite chars_app.
    change (chars ("=" ++ b)) with ("="%char :: chars b).
    rewrite partition_chars_app.
    + now rewrite !string_of_list_ascii_of_string.
    + now apply clean_without.
  - change (pair_text p :: map pair_text ps) with (map pair_text (p :: ps)).
    apply Forall_map. eapply Forall_impl; [|exact H].
    intros [a b] [Ha Hb]. simpl in Ha, Hb. unfold pair_text. simpl fst. simpl snd.
    rewrite chars_app.
    change (chars ("=" ++ b)) with ("="%char :: chars b). intros Hin.
    apply in_app_or in Hin. destruct Hin as [Hin|[Hin|Hin]].
    + revert Hin. now apply clean_without.
    + discriminate.
    + revert Hin. now apply clean_without.
Qed.

End Quoting.

(** ** The query string of [get] *)

Section Encoding.
Context {py : PyBuiltins}.

Lemma urlencode_item_texts (k : string) (v : json) :
  urlencode_item k v =
  map (fun t => pair_text (quote_plus k, quote_plus t)) (value_texts v).
Proof.
  destruct v; try reflexivity.
  - simpl. now rewrite map_map.
  - simpl. unfold keys. now rewrite map_map.
Qed.

Lemma urlencode_pairs_texts (d : dict) :
  urlencode_pairs d = map pair_text (expected_pairs d).
Proof.
  unfold urlencode_pairs, expected_pairs.
  induction d as [|[k v] d IH]; simpl; [reflexivity|].
  rewrite map_app, <- IH, urlencode_item_texts, map_map. reflexivity.
Qed.

Lemma expected_pairs_clean (d : dict) :
  Forall (fun p => clean (fst p) /\ clean (snd p)) (expected_pairs d).
Proof.
  unfold expected_pairs. apply Forall_flat_map.
  apply Forall_forall. intros kv _. apply Forall_map.
  apply Forall_forall. intros t _. simpl.
  split; apply quote_plus_clean.
Qed.

(** Reading the query string back gives one pair per text, in order. *)
Lemma query_pairs_urlencode (d : dict) :
  query_pairs (urlencode d) = expected_pairs d.
Proof.
  unfold urlencode. rewrite urlencode_pairs_texts.
  apply query_pairs_concat, expected_pairs_clean.
Qed.

Lemma value_texts_nil (v : json) :
  value_texts v = [] <-> v = JList [] \/ v = JDict [].
Proof.
  split.
  - destruct v as [| | | | |l|d]; simpl; try discriminate.
    + destruct l; [now left|discriminate].
    + destruct d; [now right|discriminate].
  - intros [->| ->]; reflexivity.
Qed.

Lemma expected_pairs_nil (d : dict) :
  expected_pairs d = [] <-> forall k v, In (k, v) d -> value_texts v = [].
Proof.
  unfold expected_pairs. induction d as [|[k0 v0] d IH]; simpl.
  - split; [intros _ k v []|reflexivity].
  - split.
    + intros E. apply app_eq_nil in E. destruct E as [E0 Ed].
      apply map_eq_nil in E0. intros k v [H|H].
      * now inversion H; subst.
      * apply (proj1 IH Ed k v H).
    + intros H. rewrite (H k0 v0 (or_introl eq_refl)). simpl.
      apply IH. intros k v Hin. apply (H k v). now right.
Qed.

(** The query string is empty exactly when no value has a text to give:
    the mapping is empty, or all its values are empty lists or empty
    nested mappings. *)
Lemma urlencode_empty (d : dict) :
  urlencode d = "" <-> forall k v, In (k, v) d -> value_texts v = [].
Proof.
  rewrite <- expected_pairs_nil. unfold urlencode.
  rewrite urlencode_pairs_texts, concat_empty_iff.
  - split; [apply map_eq_nil|now intros ->].
  - intros s Hs. apply in_map_iff in Hs. destruct Hs as [p [<- _]].
    destruct (pair_text_not_empty p) as [c [r ->]]. discriminate.
Qed.

Lemma length_zero (s : string) : (String.length s =? 0)%nat = true <-> s = "".
Proof.
  destruct s; simpl; split; intros H; try reflexivity; discriminate.
Qed.

Lemma plain_query_char (c : ascii) : plain c = true -> query_char c = true.
Proof. unfold query_char. now intros ->. Qed.

Lemma concat_query_chars (l : list string) :
  Forall (fun s => Forall (fun c => query_char c = true) (chars s)) l ->
  Forall (fun c => query_char c = true) (chars (String.concat "&" l)).
Proof.
  induction l as [|x l IH]; intros H; [constructor|].
  inversion H as [|? ? Hx Hl]; subst.
  destruct l as [|y l]; [exact Hx|].
  change (String.concat "&" (x :: y :: l))
    with (x ++ "&" ++ String.concat "&" (y :: l)).
  rewrite chars_app.
  change (chars ("&" ++ String.concat "&" (y :: l)))
    with ("&"%char :: chars (String.concat "&" (y :: l))).
  apply Forall_app. split; [exact Hx|].
  constructor; [reflexivity|]. now apply IH.
Qed.

(** The query string is made of letters, digits and [_.-~%+&=]. *)
Lemma urlencode_query_chars (d : dict) :
  Forall (fun c => query_char c = true) (chars (urlencode d)).
Proof.
  unfold urlencode. rewrite urlencode_pairs_texts.
  apply concat_query_chars. apply Forall_map.
  eapply Forall_impl; [|apply expected_pairs_clean].
  intros [a b] [Ha Hb]. simpl in Ha, Hb. unfold pair_text. simpl fst. simpl snd.
  rewrite chars_app. change (chars ("=" ++ b)) with ("="%char :: chars b).
  apply Forall_app. split; [|constructor; [reflexivity|]].
  - eapply Forall_impl; [|exact Ha]. apply plain_query_char.
  - eapply Forall_impl; [|exact Hb]. apply plain_query_char.
Qed.

Lemma urlencode_no_comma (d : dict) : ~ In ","%char (chars (urlencode d)).
Proof.
  intros Hin. pose proof (urlencode_query_chars d) as H.
  rewrite Forall_forall in H. specialize (H _ Hin). discriminate H.
Qed.

Lemma query_keys_urlencode (d : dict) (key : string) :
  In key (query_keys (urlencode d)) <->
  exists k v, In (k, v) d /\ value_texts v <> [] /\ key = quote_plus k.
Proof.
  unfold query_keys. rewrite query_pairs_urlencode. unfold expected_pairs.
  rewrite in_map_iff. split.
  - intros [[a b] [E Hin]]. simpl in E. subst a.
    apply in_flat_map in Hin. destruct Hin as [[k v] [Hkv Hin]].
    apply in_map_iff in Hin. destruct Hin as [t [Et Ht]].
    simpl in Et, Ht. inversion Et; subst.
    exists k, v. split; [exact Hkv|]. split; [|reflexivity].
    intros E. now rewrite E in Ht.
  - intros [k [v [Hkv [Hne ->]]]].
    destruct (value_texts v) as [|t ts] eqn:Ev; [congruence|].
    exists (quote_plus k, quote_plus t). split; [reflexivity|].
    apply in_flat_map. exists (k, v). split; [exact Hkv|].
    simpl. rewrite Ev. now left.
Qed.

End Encoding.

Section GetUrl.
Context {py : PyBuiltins} {transport : Transport} {codec : Codec}.

Lemma get_url_Some (address url_base_path : string) (request : Message)
    (used_params : option (list string)) (json_request : dict) :
  remove_used_params used_params (MessageToDict request) = inr json_request ->
  get_url address url_base_path (Some request) used_params =
  if String.eqb (urlencode json_request) ""
  then inr (address ++ url_base_path)
  else inr (address ++ url_base_path ++ "?" ++ urlencode json_request).
Proof.
  intros E. unfold get_url. rewrite E.
  destruct (String.eqb_spec (urlencode json_request) "") as [H|H].
  - now rewrite (proj2 (length_zero _) H).
  - destruct (String.length (urlencode json_request) =? 0)%nat eqn:El;
      [|reflexivity].
    apply length_zero in El. contradiction.
Qed.

(** C2, as the code has it.  With no request object the URL is the base
    address followed by the path, and that is where the request goes.
    With a request object the test is on the query string, not on the
    mapping: when the mapping left after the exclusion encodes to the
    empty string, the URL is again base and path; otherwise a question
    mark and the encoded mapping follow.  The string is empty exactly
    when every value left is an empty list or an empty nested mapping,
    which covers the empty mapping. *)
Theorem get_url_by_query_string (address url_base_path : string) :
  (forall used_params,
      get_url address url_base_path None used_params
        = inr (address ++ url_base_path))
  /\ (forall request used_params json_request,
      remove_used_params used_params (MessageToDict request)
        = inr json_request ->
      (urlencode json_request = "" ->
       get_url address url_base_path (Some request) used_params
         = inr (address ++ url_base_path))
      /\ (urlencode json_request <> "" ->
          get_url address url_base_path (Some request) used_params
            = inr (address ++ url_base_path ++ "?" ++ urlencode json_request))
      /\ (urlencode json_request = "" <->
          forall k v, In (k, v) json_request -> v = JList [] \/ v = JDict [])
      /\ (json_request = [] -> urlencode json_request = ""))
  /\ (forall st request used_params url,
      get_url (rest_address (self st)) url_base_path request used_params
        = inr url ->
      sent (net (snd (get url_base_path request used_params st)))
        = get_request st url :: sent (net st)).
Proof.
  split; [reflexivity|]. split.
  - intros request used_params json_request E.
    pose proof (get_url_Some address url_base_path request used_params
                  json_request E) as Hurl.
    split; [|split; [|split]].
    + intros H. rewrite Hurl, H. reflexivity.
    + intros H. rewrite Hurl.
      now destruct (String.eqb_spec (urlencode json_request) "").
    + rewrite urlencode_empty. split; intros H k v Hin.
      * apply value_texts_nil. now apply (H k v).
      * apply value_texts_nil. now apply (H k v).
    + now intros ->.
  - intros st request used_params url Hurl.
    rewrite get_run, Hurl. simpl.
    destruct (send _ _) as [msg|response]; simpl; [reflexivity|].
    now destruct (status_code response =? 200)%Z.
Qed.

(** C5, as the code has it.  The mapping left after the exclusion is
    encoded item by item, in order.  Read back, the query string has one
    [key=value] pair per text of each value: a list of n elements gives n
    pairs under its key, element by element, and since a comma is always
    quoted the string holds none.  The keys in the query string are the
    keys left after the exclusion whose value is not an empty list or an
    empty nested mapping; such an empty value gives no pair at all. *)
Theorem urlencode_repeats_keys (request : Message)
    (used_params : option (list string)) (json_request : dict) :
  remove_used_params used_params (MessageToDict request) = inr json_request ->
  query_pairs (urlencode json_request) = expected_pairs json_request
  /\ (forall d1 k l d2,
      json_request = (d1 ++ (k, JList l) :: d2)%list ->
      query_pairs (urlencode json_request)
        = (expected_pairs d1
           ++ map (fun elt => (quote_plus k, quote_plus (py_str elt))) l
           ++ expected_pairs d2)%list
      /\ length (map (fun elt => (quote_plus k, quote_plus (py_str elt))) l)
         = length l)
  /\ ~ In ","%char (chars (urlencode json_request))
  /\ (forall key,
      In key (query_keys (urlencode json_request)) <->
      exists k v,
        In (k, v) json_request
        /\ v <> JList [] /\ v <> JDict []
        /\ key = quote_plus k)
  /\ (forall k v,
      In (k, v) json_request <->
      In (k, v) (MessageToDict request)
      /\ match used_params with
         | Some used_params => ~ In k used_params
         | None => True
         end).
Proof.
  intros E. split; [apply query_pairs_urlencode|].
  split; [|split; [apply urlencode_no_comma|split]].
  - intros d1 k l d2 ->. rewrite query_pairs_urlencode.
    split; [|apply length_map].
    unfold expected_pairs. rewrite flat_map_app. simpl.
    now rewrite map_map.
  - intros key. rewrite query_keys_urlencode.
    split; intros [k [v [Hin [Hv Hkey]]]]; exists k, v.
    + split; [exact Hin|]. rewrite value_texts_nil in Hv.
      repeat split; try exact Hkey; intros ->; apply Hv; auto.
    + destruct Hkey as [Hd Hkey]. split; [exact Hin|].
      split; [|exact Hkey]. rewrite value_texts_nil. tauto.
  - intros k v. destruct used_params as [ps|]; simpl in E.
    + destruct (pop_params_inr _ _ _ (MessageToDict_NoDup request) E)
        as [Hd _].
      rewrite Hd, filter_In. unfold not_listed. simpl.
      rewrite negb_true_iff. split; intros [Hin Hk]; (split; [exact Hin|]).
      * intros Hps.
        assert (existsb (String.eqb k) ps = true) as Ex; [|congruence].
        apply existsb_exists. exists k. split; [exact Hps|apply String.eqb_refl].
      * destruct (existsb (String.eqb k) ps) eqn:Ex; [|reflexivity].
        apply existsb_exists in Ex. destruct Ex as [x [Hx Hxe]].
        apply String.eqb_eq in Hxe. subst x. contradiction.
    + inversion E; subst. tauto.
Qed.

End GetUrl.

(** * The model at work *)

(** A 404 answer, to [get] and to [post]. *)
Lemma non_200_raises_RuntimeError_witness :
  status_code not_found <> 200%Z
  /\ fst (@get ascii_builtins (answering (inr not_found)) dict_codec
            "/blocks/latest" None None fresh_client)
     = inl (RuntimeError
              ("Error when sending a GET request." ++ nl
               ++ " Response: 404, b'not found')"))
  /\ fst (@post ascii_builtins (answering (inr not_found)) dict_codec
            "/cosmos/tx/v1beta1/txs" tx_request fresh_client)
     = inl (RuntimeError
              ("Error when sending a POST request." ++ nl
               ++ " Request: {'tx_bytes': 'AB==', 'mode': 'BROADCAST_MODE_SYNC'}"
               ++ nl ++ " Response: 404, b'not found')")).
Proof.
  assert (status_code not_found <> 200%Z) as H by (simpl; lia).
  split; [exact H|].
  destruct (@non_200_raises_RuntimeError ascii_builtins
              (answering (inr not_found)) dict_codec not_found H)
    as [Hget [Hpost _]].
  split.
  - exact (Hget fresh_client "/blocks/latest" None None
             "http://node/blocks/latest" eq_refl eq_refl).
  - exact (Hpost fresh_client "/cosmos/tx/v1beta1/txs" tx_request eq_refl).
Defined.

(** A 200 answer, to [get] and to [post]. *)
Lemma status_200_returns_content_witness :
  status_code latest_block = 200%Z
  /\ fst (@get ascii_builtins (answering (inr latest_block)) dict_codec
            "/blocks/latest" None None fresh_client)
     = inr (list_byte_of_string "{...}")
  /\ fst (@post ascii_builtins (answering (inr latest_block)) dict_codec
            "/cosmos/tx/v1beta1/txs" tx_request fresh_client)
     = inr (list_byte_of_string "{...}").
Proof.
  split; [reflexivity|].
  destruct (@status_200_returns_content ascii_builtins
              (answering (inr latest_block)) dict_codec latest_block eq_refl)
    as [Hget Hpost].
  split.
  - exact (Hget fresh_client "/blocks/latest" None None
             "http://node/blocks/latest" eq_refl eq_refl).
  - exact (Hpost fresh_client "/cosmos/tx/v1beta1/txs" tx_request eq_refl).
Defined.

(** The balance query with [address] listed twice. *)
Lemma used_param_listed_twice_raises_witness :
  pop_params ["address"] (@MessageToDict dict_codec balance_request)
    = inr [("denom", JStr "atestfet")]
  /\ @get ascii_builtins (answering (inr latest_block)) dict_codec
       "/cosmos/bank/v1beta1/balances/fetch1abc" (Some balance_request)
       (Some ["address"; "address"]) fresh_client
     = (inl (KeyError "address"), fresh_client).
Proof.
  split; [reflexivity|].
  destruct (@used_param_listed_twice_raises ascii_builtins
              (answering (inr latest_block)) dict_codec fresh_client
              "/cosmos/bank/v1beta1/balances/fetch1abc" balance_request
              [] [] [] "address") as [_ Hsecond].
  exact (proj2 (proj2 (Hsecond [("denom", JStr "atestfet")] eq_refl))).
Defined.

(** A request with two tags, and one with no field set. *)
Lemma get_url_by_query_string_witness :
  @urlencode ascii_builtins tags_request <> ""
  /\ @get_url ascii_builtins dict_codec "http://node" "/txs"
       (Some tags_request) None
     = inr "http://node/txs?tags=a&tags=b"
  /\ @get_url ascii_builtins dict_codec "http://node" "/txs" (Some []) None
     = inr "http://node/txs".
Proof.
  assert (@urlencode ascii_builtins tags_request <> "") as H
    by (vm_compute; discriminate).
  split; [exact H|].
  destruct (@get_url_by_query_string ascii_builtins
              (answering (inr latest_block)) dict_codec "http://node" "/txs")
    as [_ [Hsome _]].
  split.
  - exact (proj1 (proj2 (Hsome tags_request None tags_request eq_refl)) H).
  - exact (proj1 (Hsome [] None [] eq_refl) eq_refl).
Defined.

(** Two tags give two pairs under the same key. *)
Lemma urlencode_repeats_keys_witness :
  @remove_used_params None (@MessageToDict dict_codec tags_request)
    = inr tags_request
  /\ query_pairs "tags=a&tags=b" = [("tags", "a"); ("tags", "b")].
Proof.
  split; [reflexivity|].
  destruct (@urlencode_repeats_keys ascii_builtins dict_codec
              tags_request None tags_request eq_refl) as [_ [Hlist _]].
  exact (proj1 (Hlist [] "tags" [JStr "a"; JStr "b"] [] eq_refl)).
Defined.

(** C2 fails as it is worded: a request whose only field is a nested
    message with nothing set leaves a mapping that is not empty, and yet
    the URL is base and path, with no question mark. *)
Lemma get_url_empty_page_counterexample :
  @remove_used_params None (@MessageToDict dict_codec empty_page_request)
    = inr [("pagination", JDict [])]
  /\ @get_url ascii_builtins dict_codec "http://node" "/validators"
       (Some empty_page_request) None
     = inr "http://node/validators"
  /\ @get_url ascii_builtins dict_codec "http://node" "/validators"
       (Some empty_page_request) None
     <> inr ("http://node" ++ "/validators" ++ "?"
             ++ @urlencode ascii_builtins [("pagination", JDict [])]).
Proof.
  split; [reflexivity|]. split; [reflexivity|].
  vm_compute. discriminate.
Qed.

(** C5 fails as it is worded: the key of an empty nested message is left
    after the exclusion and is not in the query string. *)
Lemma urlencode_drops_empty_value_counterexample :
  @remove_used_params None (@MessageToDict dict_codec paged_balances_request)
    = inr paged_balances_request
  /\ In "pagination" (keys paged_balances_request)
  /\ @urlencode ascii_builtins paged_balances_request = "address=fetch1abc"
  /\ query_keys (@urlencode ascii_builtins paged_balances_request)
     = ["address"]
  /\ ~ In (quote_plus "pagination")
          (query_keys (@urlencode ascii_builtins paged_balances_request))
  /\ @get_url ascii_builtins dict_codec "http://node" "/balances"
       (Some paged_balances_request) None
     = inr "http://node/balances?address=fetch1abc".
Proof.
  split; [reflexivity|]. split; [right; now left|].
  split; [reflexivity|]. split; [reflexivity|]. split; [|reflexivity].
  vm_compute. intros [H|[]]. discriminate H.
Qed.

(** C8 fails as it is worded: the class has no [close]; when [get]
    leaves by raising, or by returning, the session has not been closed;
    and a finalizer that runs twice closes it twice. *)
Lemma session_left_open_counterexample :
  ~ In "close" RestClient_methods
  /\ closed (net (@run_calls ascii_builtins (answering (inr not_found))
                    dict_codec [Call_get "/blocks/latest" None None;
                                Call_del; Call_del] fresh_client))
     = [0; 0]%nat
  /\ fst (@get ascii_builtins (answering (inr not_found)) dict_codec
            "/blocks/latest" None None fresh_client)
     = inl (RuntimeError (get_error not_found))
  /\ closed (net (snd (@get ascii_builtins (answering (inr not_found))
                         dict_codec "/blocks/latest" None None fresh_client)))
     = []
  /\ fst (@get ascii_builtins (answering (inr latest_block)) dict_codec
            "/blocks/latest" None None fresh_client)
     = inr (content latest_block)
  /\ closed (net (snd (@get ascii_builtins (answering (inr latest_block))
                         dict_codec "/blocks/latest" None None fresh_client)))
     = [].
Proof.
  split.
  - simpl. intros [H|[H|[H|[H|[]]]]]; discriminate.
  - repeat split.
Qed.

(** The scenarios of the specification, run. *)

Example get_latest_block :
  @get ascii_builtins (answering (inr latest_block)) dict_codec
    "/blocks/latest" None None fresh_client
  = (inr (list_byte_of_string "{...}"),
     {| self := {| _session := 0; rest_address := "http://node" |};
        net := {| sessions := 1; closed := [];
                  sent := [{| rq_session := 0; rq_method := GET;
                              rq_url := "http://node/blocks/latest";
                              rq_json := None; rq_headers := [] |}] |} |}).
Proof. reflexivity. Qed.

Example post_tx_rejected :
  @post ascii_builtins
    (answering (inr {| status_code := 400; content := [] |})) dict_codec
    "/cosmos/tx/v1beta1/txs" tx_request fresh_client
  = (inl (RuntimeError
            ("Error when sending a POST request." ++ nl
             ++ " Request: {'tx_bytes': 'AB==', 'mode': 'BROADCAST_MODE_SYNC'}"
             ++ nl ++ " Response: 400, b'')")),
     {| self := {| _session := 0; rest_address := "http://node" |};
        net := {| sessions := 1; closed := [];
                  sent := [{| rq_session := 0; rq_method := POST;
                              rq_url := "http://node/cosmos/tx/v1beta1/txs";
                              rq_json := Some tx_request;
                              rq_headers :=
                                [("Content-type", "application/json");
                                 ("Accept", "application/json")] |}] |} |}).
Proof. reflexivity. Qed.

Example get_unreachable :
  fst (@get ascii_builtins (answering (inl "connection refused")) dict_codec
         "/blocks/latest" None (Some ["height"]) fresh_client)
  = inl (RequestException "connection refused").
Proof. reflexivity. Qed.

Example bytes_repr_escapes :
  bytes_repr [x41; x0a; x27; xff; x5c]
  = String "b" (String dquote ("A\n'\xff\\" ++ String dquote "")).
Proof. reflexivity. Qed.

Example quote_plus_text :
  quote_plus "a b&c=d,e~/" = "a+b%26c%3Dd%2Ce~%2F".
Proof. reflexivity. Qed.

(** * Further properties of the client *)

(** ** How a call can end *)

Section Outcomes.
Context {py : PyBuiltins} {transport : Transport} {codec : Codec}.

(** X1.  [get] and [post] return nothing but the body of an answer with
    status 200 to the one request they issued. *)
Theorem returns_only_the_body_of_a_200 (st : state) (url_base_path : string)
    (body : bytes) :
  (forall request used_params,
      fst (get url_base_path request used_params st) = inr body ->
      exists url response,
        get_url (rest_address (self st)) url_base_path request used_params
          = inr url
        /\ send (net st) (get_request st url) = inr response
        /\ status_code response = 200%Z
        /\ content response = body
        /\ snd (get url_base_path request used_params st)
           = after_request st (get_request st url))
  /\ (forall request,
      fst (post url_base_path request st) = inr body ->
      exists response,
        send (net st) (post_request st url_base_path request) = inr response
        /\ status_code response = 200%Z
        /\ content response = body).
Proof.
  split.
  - intros request used_params. rewrite get_run.
    destruct (get_url _ _ _ _) as [e|url]; simpl; [discriminate|].
    destruct (send _ _) as [msg|response] eqn:Es; simpl; [discriminate|].
    destruct (status_code response =? 200)%Z eqn:Eb; simpl; [|discriminate].
    intros H. inversion H; subst. exists url, response.
    apply Z.eqb_eq in Eb. repeat split; assumption.
  - intros request. rewrite post_run. simpl.
    destruct (send _ _) as [msg|response] eqn:Es; simpl; [discriminate|].
    destruct (status_code response =? 200)%Z eqn:Eb; simpl; [|discriminate].
    intros H. inversion H; subst. exists response.
    apply Z.eqb_eq in Eb. repeat split; assumption.
Qed.

(** X2.  The exceptions that leave [get]: [KeyError] of a listed key, before
    anything is sent and only with a request and an exclusion list; the
    transport's own exception; [RuntimeError] for an answer whose status
    is not 200.  [post] never raises [KeyError]. *)
Theorem exceptions_of_get_and_post (st : state) (url_base_path : string)
    (e : exception) :
  (forall request used_params,
      fst (get url_base_path request used_params st) = inl e ->
      (exists message used key,
          request = Some message /\ used_params = Some used
          /\ In key used /\ e = KeyError key
          /\ snd (get url_base_path request used_params st) = st)
      \/ (exists url msg,
          get_url (rest_address (self st)) url_base_path request used_params
            = inr url
          /\ send (net st) (get_request st url) = inl msg
          /\ e = RequestException msg)
      \/ (exists url response,
          get_url (rest_address (self st)) url_base_path request used_params
            = inr url
          /\ send (net st) (get_request st url) = inr response
          /\ status_code response <> 200%Z
          /\ e = RuntimeError (get_error response)))
  /\ (forall request,
      fst (post url_base_path request st) = inl e ->
      (exists msg,
          send (net st) (post_request st url_base_path request) = inl msg
          /\ e = RequestException msg)
      \/ (exists response,
          send (net st) (post_request st url_base_path request) = inr response
          /\ status_code response <> 200%Z
          /\ e = RuntimeError (post_error (MessageToDict request) response))).
Proof.
  split.
  - intros request used_params. rewrite get_run.
    destruct (get_url _ _ _ _) as [e'|url] eqn:Eu; simpl.
    + intros H. inversion H; subst e'. left.
      unfold get_url in Eu. destruct request as [message|]; [|discriminate].
      unfold remove_used_params in Eu.
      destruct used_params as [used|].
      * destruct (pop_params used (MessageToDict message)) as [e'|d] eqn:Ep.
        -- inversion Eu; subst e'.
           destruct (pop_params_inl _ _ _ Ep) as [key [Hin ->]].
           exists message, used, key. repeat split; assumption.
        -- destruct (String.length (urlencode d) =? 0)%nat; discriminate.
      * destruct (String.length (urlencode (MessageToDict message)) =? 0)%nat;
          discriminate.
    + destruct (send _ _) as [msg|response] eqn:Es; simpl.
      * intros H. inversion H; subst. right. left. exists url, msg. auto.
      * destruct (status_code response =? 200)%Z eqn:Eb; simpl;
          [discriminate|].
        intros H. inversion H; subst. right. right.
        exists url, response. apply Z.eqb_neq in Eb. auto.
  - intros request. rewrite post_run. simpl.
    destruct (send _ _) as [msg|response] eqn:Es; simpl.
    + intros H. inversion H; subst. left. exists msg. auto.
    + destruct (status_code response =? 200)%Z eqn:Eb; simpl; [discriminate|].
      intros H. inversion H; subst. right.
      exists response. apply Z.eqb_neq in Eb. auto.
Qed.

(** X3.  An exception of the transport is not caught: it leaves [get] and
    [post] as it is, after the request has been handed over. *)
Theorem transport_exception_propagates (st : state) (url_base_path : string)
    (msg : string) :
  (forall request used_params url,
      get_url (rest_address (self st)) url_base_path request used_params
        = inr url ->
      send (net st) (get_request st url) = inl msg ->
      get url_base_path request used_params st
        = (inl (RequestException msg), after_request st (get_request st url)))
  /\ (forall request,
      send (net st) (post_request st url_base_path request) = inl msg ->
      post url_base_path request st
        = (inl (RequestException msg),
           after_request st (post_request st url_base_path request))).
Proof.
  split.
  - intros request used_params url Hurl Hsend.
    rewrite get_run, Hurl. simpl. now rewrite Hsend.
  - intros request Hsend. rewrite post_run. simpl. now rewrite Hsend.
Qed.

End Outcomes.

(** ** More on the exclusion list *)

Section ExclusionOrder.
Context {py : PyBuiltins} {transport : Transport} {codec : Codec}.

Lemma not_listed_perm (ps ps' : list string) (kv : string * json) :
  Permutation ps ps' -> not_listed ps kv = not_listed ps' kv.
Proof.
  intros Hp. unfold not_listed. f_equal.
  destruct (existsb (String.eqb (fst kv)) ps) eqn:E;
    destruct (existsb (String.eqb (fst kv)) ps') eqn:E'; try reflexivity.
  - apply existsb_exists in E. destruct E as [x [Hx Hxe]].
    assert (existsb (String.eqb (fst kv)) ps' = true) as H; [|congruence].
    apply existsb_exists. exists x. split; [|exact Hxe].
    eapply Permutation_in; eassumption.
  - apply existsb_exists in E'. destruct E' as [x [Hx Hxe]].
    assert (existsb (String.eqb (fst kv)) ps = true) as H; [|congruence].
    apply existsb_exists. exists x. split; [|exact Hxe].
    eapply Permutation_in; [apply Permutation_sym|]; eassumption.
Qed.

Lemma pop_params_perm (ps ps' : list string) (d d' : dict) :
  dict_wf d -> Permutation ps ps' ->
  pop_params ps d = inr d' -> pop_params ps' d = inr d'.
Proof.
  intros Hwf Hp E.
  destruct (pop_params_inr ps d d' Hwf E) as [-> [Hnd Hincl]].
  rewrite (pop_params_complete ps' d Hwf).
  - f_equal. apply filter_ext. intros kv. symmetry. now apply not_listed_perm.
  - eapply Permutation_NoDup; eassumption.
  - intros x Hx. apply Hincl.
    eapply Permutation_in; [apply Permutation_sym|]; eassumption.
Qed.

(** X4.  The order of the exclusion list does not matter to a call that goes
    through: listing the same keys in another order gives the same URL.
    A list that makes [get] raise still does so in any order, with
    [KeyError] of one of its keys. *)
Theorem used_params_order_irrelevant (address url_base_path : string)
    (request : Message) (used_params used_params' : list string) :
  Permutation used_params used_params' ->
  (forall url,
      get_url address url_base_path (Some request) (Some used_params)
        = inr url ->
      get_url address url_base_path (Some request) (Some used_params')
        = inr url)
  /\ (forall e,
      get_url address url_base_path (Some request) (Some used_params)
        = inl e ->
      exists key,
        In key used_params
        /\ get_url address url_base_path (Some request) (Some used_params')
           = inl (KeyError key)).
Proof.
  intros Hp. unfold get_url, remove_used_params. split.
  - intros url.
    destruct (pop_params used_params (MessageToDict request)) as [e|d] eqn:E;
      [discriminate|].
    now rewrite (pop_params_perm _ _ _ _ (MessageToDict_NoDup request) Hp E).
  - intros e H.
    destruct (pop_params used_params' (MessageToDict request))
      as [e'|d'] eqn:E'.
    + destruct (pop_params_inl _ _ _ E') as [key [Hin ->]].
      exists key. split; [|reflexivity].
      eapply Permutation_in; [apply Permutation_sym|]; eassumption.
    + exfalso.
      rewrite (pop_params_perm _ _ _ _ (MessageToDict_NoDup request)
                 (Permutation_sym Hp) E') in H.
      destruct (String.length (urlencode d') =? 0)%nat; discriminate.
Qed.

Lemma filter_all_listed (ps : list string) (d : dict) :
  (forall k, In k (keys d) -> In k ps) -> filter (not_listed ps) d = [].
Proof.
  induction d as [|[k v] d IH]; simpl; intros H; [reflexivity|].
  unfold not_listed at 1. simpl.
  assert (existsb (String.eqb k) ps = true) as ->.
  { apply existsb_exists. exists k. split; [|apply String.eqb_refl].
    apply H. now left. }
  simpl. apply IH. intros k' Hk'. apply H. now right.
Qed.

(** X5.  When the exclusion list names every field of the request, each once,
    nothing is left to encode and the URL is the base address followed
    by the path. *)
Theorem all_fields_used_gives_bare_url (address url_base_path : string)
    (request : Message) (used_params : list string) :
  NoDup used_params ->
  (forall key, In key used_params <-> In key (keys (MessageToDict request))) ->
  get_url address url_base_path (Some request) (Some used_params)
    = inr (address ++ url_base_path).
Proof.
  intros Hnd Hkeys. unfold get_url, remove_used_params.
  rewrite (pop_params_complete _ _ (MessageToDict_NoDup request) Hnd).
  - rewrite filter_all_listed; [reflexivity|].
    intros k Hk. now apply Hkeys.
  - intros k Hk. now apply Hkeys.
Qed.

End ExclusionOrder.

(** ** More on the query string *)

Section QuotePlus.

Lemma mem_char_space (s : string) :
  mem_char " " s = false -> Forall (fun c => c <> " "%char) (chars s).
Proof.
  unfold mem_char. intros H. apply Forall_forall. intros c Hc ->.
  assert (existsb (Ascii.eqb " ") (chars s) = true) as E; [|congruence].
  apply existsb_exists. exists " "%char. split; [exact Hc|reflexivity].
Qed.

Lemma replace_space_quoter (c : ascii) :
  map (fun x => if Ascii.eqb x " " then "+"%char else x) (chars (quoter " " c))
  = quote_plus_char c.
Proof.
  destruct c as [[] [] [] [] [] [] [] []]; reflexivity.
Qed.

(** [quote_plus] works octet by octet. *)
Lemma quote_plus_chars (s : string) :
  chars (quote_plus s) = flat_map quote_plus_char (chars s).
Proof.
  unfold quote_plus. destruct (mem_char " " s) eqn:E; simpl.
  - rewrite replace_char_chars. unfold quote.
    rewrite chars_concat_empty, map_map, concat_map, map_map.
    rewrite flat_map_concat_map. f_equal.
    apply map_ext. intros c. apply replace_space_quoter.
  - unfold quote. rewrite chars_concat_empty, map_map.
    rewrite flat_map_concat_map. f_equal.
    apply map_ext_in. intros c Hc. unfold quote_plus_char.
    pose proof (mem_char_space s E) as Hs. rewrite Forall_forall in Hs.
    destruct (Ascii.eqb_spec c " ") as [->|_]; [|reflexivity].
    now elim (Hs _ Hc).
Qed.

Lemma quote_plus_char_length (c : ascii) :
  length (quote_plus_char c) = 1%nat \/ length (quote_plus_char c) = 3%nat.
Proof.
  unfold quote_plus_char, quoter.
  destruct (Ascii.eqb c " "); [now left|].
  destruct (mem_char c always_safe || mem_char c ""); [now left|now right].
Qed.

Lemma unquote_quote_plus_char (c : ascii) (rest : list ascii) :
  unquote_chars
    (map (fun x => if Ascii.eqb x "+" then " "%char else x)
         (quote_plus_char c ++ rest))
  = c :: unquote_chars
           (map (fun x => if Ascii.eqb x "+" then " "%char else x) rest).
Proof.
  destruct c as [[] [] [] [] [] [] [] []]; reflexivity.
Qed.

(** Decoding undoes [quote_plus]. *)
Lemma unquote_plus_quote_plus (s : string) : unquote_plus (quote_plus s) = s.
Proof.
  unfold unquote_plus, unquote.
  rewrite replace_char_chars, quote_plus_chars.
  rewrite <- (string_of_list_ascii_of_string s) at 2. f_equal.
  induction (chars s) as [|c l IH]; [reflexivity|].
  simpl flat_map. rewrite unquote_quote_plus_char. now rewrite IH.
Qed.

(** X6.  Text made of letters, digits and [_.-~] is written as it is. *)
Theorem quote_plus_keeps_unreserved (s : string) :
  unreserved s -> quote_plus s = s.
Proof.
  unfold unreserved. intros H.
  rewrite <- (string_of_list_ascii_of_string (quote_plus s)).
  rewrite <- (string_of_list_ascii_of_string s) at 2. f_equal.
  rewrite quote_plus_chars.
  induction (chars s) as [|c l IH]; [reflexivity|].
  inversion H as [|? ? Hc Hl]; subst. simpl. rewrite (IH Hl).
  unfold quote_plus_char, quoter. rewrite Hc. simpl.
  destruct (Ascii.eqb_spec c " ") as [->|_]; [discriminate Hc|reflexivity].
Qed.

(** X7.  Quoting never shortens a text and at most triples it. *)
Theorem quote_plus_length (s : string) :
  (String.length s <= String.length (quote_plus s) <= 3 * String.length s)%nat.
Proof.
  assert (forall t, String.length t = length (chars t)) as Hlen.
  { induction t as [|x t IH]; simpl; [reflexivity|now rewrite IH]. }
  rewrite !Hlen, quote_plus_chars.
  induction (chars s) as [|c l IH]; simpl; [lia|].
  rewrite length_app.
  destruct (quote_plus_char_length c) as [E|E]; rewrite E; lia.
Qed.

End QuotePlus.

(** ** The exclusion list in the URL, and the session in use *)

Section ExclusionInGet.
Context {py : PyBuiltins} {transport : Transport} {codec : Codec}.

Lemma quote_plus_injective (a b : string) :
  quote_plus a = quote_plus b -> a = b.
Proof.
  intros H. apply (f_equal unquote_plus) in H.
  now rewrite !unquote_plus_quote_plus in H.
Qed.

(** C3.  With a request and an exclusion list, [get] pops every listed
    key: when the loop goes through, each listed key was in the mapping
    and is in it no more, and the rest of the mapping is untouched and in
    order.  It is this mapping that [get] encodes: the URL of the request
    it sends is built from it, no listed key is a key of the query
    string, and every key of the query string is a key that was not
    listed.  When a listed key is not in the mapping, [get] raises
    [KeyError] on a listed key and sends nothing.  The loop does go
    through when every listed key is in the mapping and none is listed
    twice. *)
Theorem used_params_popped_or_KeyError (st : state) (url_base_path : string)
    (request : Message) (used_params : list string) :
  (forall json_request,
      remove_used_params (Some used_params) (MessageToDict request)
        = inr json_request ->
      json_request = filter (not_listed used_params) (MessageToDict request)
      /\ (forall key, In key used_params ->
           In key (keys (MessageToDict request))
           /\ ~ In key (keys json_request)
           /\ ~ In (quote_plus key) (query_keys (urlencode json_request)))
      /\ (forall key', In key' (query_keys (urlencode json_request)) ->
           exists k v,
             In (k, v) (MessageToDict request)
             /\ ~ In k used_params /\ key' = quote_plus k)
      /\ exists url,
           url = (if String.eqb (urlencode json_request) ""
                  then rest_address (self st) ++ url_base_path
                  else rest_address (self st) ++ url_base_path ++ "?"
                       ++ urlencode json_request)
           /\ get_url (rest_address (self st)) url_base_path (Some request)
                (Some used_params) = inr url
           /\ sent (net (snd (get url_base_path (Some request)
                                (Some used_params) st)))
              = get_request st url :: sent (net st))
  /\ (forall key,
      In key used_params -> ~ In key (keys (MessageToDict request)) ->
      exists key',
        In key' used_params
        /\ get url_base_path (Some request) (Some used_params) st
           = (inl (KeyError key'), st))
  /\ (NoDup used_params ->
      incl used_params (keys (MessageToDict request)) ->
      remove_used_params (Some used_params) (MessageToDict request)
        = inr (filter (not_listed used_params) (MessageToDict request))).
Proof.
  split; [|split].
  - intros json_request E.
    pose proof (get_url_Some (rest_address (self st)) url_base_path request
                  (Some used_params) json_request E) as Hurl.
    simpl in E.
    destruct (pop_params_inr _ _ _ (MessageToDict_NoDup request) E)
      as [Hd [_ Hincl]].
    assert (forall key, In key used_params -> ~ In key (keys json_request))
      as Hgone.
    { intros key Hkey. rewrite Hd, not_listed_keys. tauto. }
    split; [exact Hd|]. split; [|split].
    + intros key Hkey. split; [now apply Hincl|].
      split; [now apply Hgone|].
      rewrite query_keys_urlencode. intros [k [v [Hin [_ Heq]]]].
      apply quote_plus_injective in Heq. subst k.
      apply (Hgone key Hkey). unfold keys. apply in_map_iff.
      exists (key, v). split; [reflexivity|exact Hin].
    + intros key' Hkey'. apply query_keys_urlencode in Hkey'.
      destruct Hkey' as [k [v [Hin [_ Heq]]]]. exists k, v.
      assert (In k (keys json_request)) as Hk.
      { unfold keys. apply in_map_iff. exists (k, v). now split. }
      rewrite Hd in Hin, Hk. apply filter_In in Hin.
      apply not_listed_keys in Hk. split; [tauto|]. split; [tauto|exact Heq].
    + exists (if String.eqb (urlencode json_request) ""
              then rest_address (self st) ++ url_base_path
              else rest_address (self st) ++ url_base_path ++ "?"
                   ++ urlencode json_request).
      split; [reflexivity|].
      assert (get_url (rest_address (self st)) url_base_path (Some request)
                (Some used_params)
              = inr (if String.eqb (urlencode json_request) ""
                     then rest_address (self st) ++ url_base_path
                     else rest_address (self st) ++ url_base_path ++ "?"
                          ++ urlencode json_request)) as Hu.
      { rewrite Hurl. now destruct (String.eqb (urlencode json_request) ""). }
      split; [exact Hu|].
      rewrite get_run, Hu. cbv zeta.
      destruct (send _ _) as [msg|response]; [reflexivity|].
      now destruct (status_code response =? 200)%Z.
  - intros key Hkey Habsent.
    destruct (pop_params used_params (MessageToDict request))
      as [e|d'] eqn:E.
    + destruct (pop_params_inl _ _ _ E) as [key' [Hin ->]].
      exists key'. split; [exact Hin|]. now apply get_KeyError.
    + destruct (pop_params_inr _ _ _ (MessageToDict_NoDup request) E)
        as [_ [_ Hincl]].
      exfalso. apply Habsent. now apply Hincl.
  - intros Hnd Hincl. simpl.
    apply pop_params_complete; [apply MessageToDict_NoDup| |]; assumption.
Qed.

End ExclusionInGet.

(** A balance query with [address] already in the path: the URL holds
    [denom] only; and one that lists a key the request does not have. *)
Lemma used_params_popped_or_KeyError_witness :
  @remove_used_params (Some ["address"]) (@MessageToDict dict_codec balance_request)
    = inr [("denom", JStr "atestfet")]
  /\ In "address" (keys (@MessageToDict dict_codec balance_request))
  /\ ~ In "address" (keys [("denom", JStr "atestfet")])
  /\ (exists url,
       url = "http://node/cosmos/bank/v1beta1/balances/fetch1abc?denom=atestfet"
       /\ @get_url ascii_builtins dict_codec "http://node"
            "/cosmos/bank/v1beta1/balances/fetch1abc" (Some balance_request)
            (Some ["address"]) = inr url
       /\ sent (net (snd (@get ascii_builtins (answering (inr latest_block))
                            dict_codec
                            "/cosmos/bank/v1beta1/balances/fetch1abc"
                            (Some balance_request) (Some ["address"])
                            fresh_client)))
          = [{| rq_session := 0; rq_method := GET; rq_url := url;
                rq_json := None; rq_headers := [] |}])
  /\ exists key',
       In key' ["denom"; "height"]
       /\ @get ascii_builtins (answering (inr latest_block)) dict_codec
            "/cosmos/bank/v1beta1/balances/fetch1abc" (Some balance_request)
            (Some ["denom"; "height"]) fresh_client
          = (inl (KeyError key'), fresh_client).
Proof.
  split; [reflexivity|].
  destruct (@used_params_popped_or_KeyError ascii_builtins
              (answering (inr latest_block)) dict_codec fresh_client
              "/cosmos/bank/v1beta1/balances/fetch1abc" balance_request
              ["address"]) as [Hpopped _].
  destruct (Hpopped [("denom", JStr "atestfet")] eq_refl)
    as [_ [Hkeys [_ Hurl]]].
  destruct (Hkeys "address" (or_introl eq_refl)) as [Hin [Hout _]].
  split; [exact Hin|]. split; [exact Hout|]. split; [exact Hurl|].
  destruct (@used_params_popped_or_KeyError ascii_builtins
              (answering (inr latest_block)) dict_codec fresh_client
              "/cosmos/bank/v1beta1/balances/fetch1abc" balance_request
              ["denom"; "height"]) as [_ [Hraise _]].
  apply (Hraise "height").
  - right. now left.
  - simpl. intros [H|[H|[]]]; discriminate.
Defined.

(** One client, three calls: both requests go through session 0. *)
Lemma one_session_reused_address_kept_witness :
  sent (net (snd (@post ascii_builtins (answering (inr latest_block))
                    dict_codec "/cosmos/tx/v1beta1/txs" tx_request
                    (@run_calls ascii_builtins (answering (inr latest_block))
                       dict_codec
                       [Call_get "/blocks/latest" None None; Call_del]
                       fresh_client))))
  = [{| rq_session := 0; rq_method := POST;
        rq_url := "http://node/cosmos/tx/v1beta1/txs";
        rq_json := Some tx_request;
        rq_headers := [("Content-type", "application/json");
                       ("Accept", "application/json")] |};
     {| rq_session := 0; rq_method := GET;
        rq_url := "http://node/blocks/latest";
        rq_json := None; rq_headers := [] |}].
Proof.
  destruct (@one_session_reused_address_kept ascii_builtins
              (answering (inr latest_block)) dict_codec "http://node" world0
              [Call_get "/blocks/latest" None None; Call_del])
    as [_ [_ [_ [_ [_ [_ [_ [Hpost _]]]]]]]].
  exact (proj1 (Hpost "/cosmos/tx/v1beta1/txs" tx_request)).
Defined.

Section QueryString.
Context {py : PyBuiltins} {transport : Transport} {codec : Codec}.

Lemma decoded_pairs_urlencode (d : dict) :
  decoded_pairs (urlencode d) = raw_pairs d.
Proof.
  unfold decoded_pairs. rewrite query_pairs_urlencode.
  unfold expected_pairs, raw_pairs.
  induction d as [|[k v] d IH]; simpl; [reflexivity|].
  rewrite map_app, IH, map_map. f_equal.
  apply map_ext. intros t. simpl. now rewrite !unquote_plus_quote_plus.
Qed.

(** X8.  Decoded as a server decodes it, the query string of a mapping gives
    back the keys and the texts of the mapping, one pair per text, in
    order: nothing is lost or mixed up by the quoting. *)
Theorem query_string_round_trip (d : dict) :
  decoded_pairs (urlencode d) = raw_pairs d
  /\ length (query_pairs (urlencode d)) = length (raw_pairs d).
Proof.
  split; [apply decoded_pairs_urlencode|].
  rewrite <- decoded_pairs_urlencode. unfold decoded_pairs.
  now rewrite length_map.
Qed.

Lemma value_texts_scalar (v : json) :
  scalar v = true -> value_texts v = [py_str v].
Proof. destruct v; simpl; try reflexivity; discriminate. Qed.

(** X9.  A mapping whose values are all scalars gives exactly one pair per
    field, in the order of the fields, with [str] of the value. *)
Theorem scalar_fields_give_one_pair_each (d : dict) :
  (forall k v, In (k, v) d -> scalar v = true) ->
  query_pairs (urlencode d)
    = map (fun kv => (quote_plus (fst kv), quote_plus (py_str (snd kv)))) d
  /\ decoded_pairs (urlencode d) = map (fun kv => (fst kv, py_str (snd kv))) d
  /\ query_keys (urlencode d) = map quote_plus (keys d).
Proof.
  intros H.
  assert (expected_pairs d
          = map (fun kv => (quote_plus (fst kv), quote_plus (py_str (snd kv)))) d)
    as He.
  { unfold expected_pairs. induction d as [|[k v] d IH]; [reflexivity|].
    simpl. rewrite (value_texts_scalar v (H k v (or_introl eq_refl))). simpl.
    f_equal. apply IH. intros k' v' Hin. apply (H k' v'). now right. }
  split; [|split].
  - now rewrite query_pairs_urlencode.
  - rewrite decoded_pairs_urlencode. unfold raw_pairs.
    clear He. induction d as [|[k v] d IH]; [reflexivity|].
    simpl. rewrite (value_texts_scalar v (H k v (or_introl eq_refl))). simpl.
    f_equal. apply IH. intros k' v' Hin. apply (H k' v'). now right.
  - unfold query_keys. rewrite query_pairs_urlencode, He.
    unfold keys. rewrite !map_map. reflexivity.
Qed.

Lemma same_texts_urlencode (d1 d2 : dict) :
  same_texts d1 d2 -> urlencode d1 = urlencode d2.
Proof.
  intros H. unfold urlencode. f_equal. unfold urlencode_pairs.
  induction H as [|[k1 v1] [k2 v2] d1 d2 [Hk Hv] _ IH]; [reflexivity|].
  simpl in Hk, Hv. subst k2. simpl.
  now rewrite IH, !urlencode_item_texts, Hv.
Qed.

Lemma same_texts_pop (key : string) (d1 d2 : dict) :
  same_texts d1 d2 ->
  match pop key d1, pop key d2 with
  | inl e1, inl e2 => e1 = e2
  | inr (_, r1), inr (_, r2) => same_texts r1 r2
  | _, _ => False
  end.
Proof.
  intros H.
  induction H as [|[k1 v1] [k2 v2] d1 d2 [Hk Hv] H IH]; [reflexivity|].
  simpl in Hk, Hv. subst k2. simpl.
  destruct (String.eqb k1 key); [exact H|].
  destruct (pop key d1) as [e1|[x1 r1]], (pop key d2) as [e2|[x2 r2]];
    try contradiction; [exact IH|].
  constructor; [split; [reflexivity|exact Hv]|exact IH].
Qed.

Lemma same_texts_pop_params (ps : list string) (d1 d2 : dict) :
  same_texts d1 d2 ->
  match pop_params ps d1, pop_params ps d2 with
  | inl e1, inl e2 => e1 = e2
  | inr r1, inr r2 => same_texts r1 r2
  | _, _ => False
  end.
Proof.
  revert d1 d2. induction ps as [|p ps IH]; intros d1 d2 H; [exact H|].
  simpl. pose proof (same_texts_pop p d1 d2 H) as Hp.
  destruct (pop p d1) as [e1|[x1 r1]], (pop p d2) as [e2|[x2 r2]];
    try contradiction; [exact Hp|].
  now apply IH.
Qed.

Lemma same_texts_get (st : state) (url_base_path : string)
    (request1 request2 : Message) (used_params : option (list string)) :
  same_texts (MessageToDict request1) (MessageToDict request2) ->
  get url_base_path (Some request1) used_params st
  = get url_base_path (Some request2) used_params st.
Proof.
  intros H. rewrite !get_run.
  assert (get_url (rest_address (self st)) url_base_path (Some request1)
            used_params
          = get_url (rest_address (self st)) url_base_path (Some request2)
              used_params) as ->; [|reflexivity].
  unfold get_url, remove_used_params. destruct used_params as [ps|].
  - pose proof (same_texts_pop_params ps _ _ H) as Hp.
    destruct (pop_params ps (MessageToDict request1)) as [e1|r1],
             (pop_params ps (MessageToDict request2)) as [e2|r2];
      try contradiction; [now subst|].
    now rewrite (same_texts_urlencode r1 r2 Hp).
  - now rewrite (same_texts_urlencode _ _ H).
Qed.

Lemma same_texts_refl (d : dict) : same_texts d d.
Proof. induction d; constructor; auto. Qed.

(** X10.  A field of the request that is itself a message, that is a
    nested mapping standing directly as the value of a key: of it only
    the names of its fields are written, one [key=name] pair each, and
    never their values.  So two requests that differ only in the values
    of the fields of such a nested message make [get] do the very same
    thing.  (A message inside a list is not of this kind: a list element
    is written through [str], values included.) *)
Theorem nested_values_never_reach_the_url (st : state)
    (url_base_path : string) (request1 request2 : Message)
    (used_params : option (list string))
    (d1 d2 : dict) (key : string) (sub sub' : dict) :
  MessageToDict request1 = (d1 ++ (key, JDict sub) :: d2)%list ->
  MessageToDict request2 = (d1 ++ (key, JDict sub') :: d2)%list ->
  keys sub = keys sub' ->
  get url_base_path (Some request1) used_params st
  = get url_base_path (Some request2) used_params st
  /\ urlencode_item key (JDict sub)
     = map (fun name => quote_plus key ++ "=" ++ quote_plus name) (keys sub)
  /\ urlencode_item key (JDict sub') = urlencode_item key (JDict sub).
Proof.
  intros E1 E2 Hk.
  assert (forall d, urlencode_item key (JDict d)
                    = map (fun name => quote_plus key ++ "=" ++ quote_plus name)
                          (keys d)) as Hitem.
  { intros d. unfold urlencode_item, keys. now rewrite map_map. }
  split; [|split; [apply Hitem|now rewrite !Hitem, Hk]].
  apply same_texts_get. rewrite E1, E2.
  apply Forall2_app; [apply same_texts_refl|].
  constructor; [|apply same_texts_refl].
  split; [reflexivity|exact Hk].
Qed.

Lemma query_char_safe (c : ascii) :
  query_char c = true ->
  printable c = true
  /\ c <> "?"%char /\ c <> "#"%char /\ c <> "/"%char /\ c <> " "%char.
Proof.
  destruct c as [[] [] [] [] [] [] [] []]; vm_compute;
    intros H; try discriminate H; repeat split; discriminate.
Qed.

(** X11.  Whatever the request holds, what [get] appends to base and path is
    nothing, or a question mark and a non-empty query string made of
    printable ASCII only, with no space, no further question mark, no
    slash and no hash sign. *)
Theorem get_url_query_is_safe (address url_base_path : string)
    (request : Message) (used_params : option (list string)) (url : string) :
  get_url address url_base_path (Some request) used_params = inr url ->
  url = address ++ url_base_path
  \/ exists q,
       url = address ++ url_base_path ++ "?" ++ q
       /\ q <> ""
       /\ forall c, In c (chars q) ->
            printable c = true
            /\ c <> "?"%char /\ c <> "#"%char /\ c <> "/"%char
            /\ c <> " "%char.
Proof.
  unfold get_url.
  destruct (remove_used_params used_params (MessageToDict request))
    as [e|d]; [discriminate|].
  destruct (String.length (urlencode d) =? 0)%nat eqn:El; intros H;
    inversion H; subst; [now left|].
  right. exists (urlencode d). split; [reflexivity|]. split.
  - intros E. rewrite E in El. discriminate.
  - intros c Hc. apply query_char_safe.
    pose proof (urlencode_query_chars d) as Hq.
    rewrite Forall_forall in Hq. now apply Hq.
Qed.

End QueryString.

(** ** More on the life of the object *)

Section Lifetimes.
Context {py : PyBuiltins} {transport : Transport} {codec : Codec}.

Lemma run_call_sent_length (c : call) (st : state) :
  (length (sent (net st)) <= length (sent (net (run_call c st)))
   <= length (sent (net st)) + (if is_request c then 1 else 0))%nat.
Proof.
  destruct c; unfold run_call, is_request, is_del; simpl negb; cbv iota.
  - rewrite get_run. destruct (get_url _ _ _ _); simpl; [lia|].
    destruct (send _ _) as [|response]; simpl; [lia|].
    destruct (status_code response =? 200)%Z; simpl; lia.
  - rewrite post_run. simpl. destruct (send _ _) as [|response]; simpl; [lia|].
    destruct (status_code response =? 200)%Z; simpl; lia.
  - rewrite del_run. simpl. lia.
Qed.

(** X12.  No call is retried: over any sequence of calls the log of requests
    only grows, by at most one request per [get] or [post] and by none
    for [__del__], whatever the remote end answers. *)
Theorem at_most_one_request_per_call (cs : list call) (st : state) :
  (length (sent (net st)) <= length (sent (net (run_calls cs st)))
   <= length (sent (net st)) + length (filter is_request cs))%nat.
Proof.
  revert st. induction cs as [|c cs IH]; intros st; simpl; [lia|].
  specialize (IH (run_call c st)).
  pose proof (run_call_sent_length c st) as Hc.
  destruct (is_request c); simpl; lia.
Qed.

(** X13.  Nothing guards against use after the finalizer: once [__del__] has
    closed the session, [post] and [get] still hand their request to that
    same session and still return the body of a 200 answer. *)
Theorem calls_after_del_are_not_refused (st : state) (url_base_path : string) :
  let st' := snd (__del__ st) in
  In (_session (self st)) (closed (net st'))
  /\ (forall request,
      sent (net (snd (post url_base_path request st')))
        = post_request st url_base_path request :: sent (net st)
      /\ forall response,
           send (net st') (post_request st url_base_path request)
             = inr response ->
           status_code response = 200%Z ->
           fst (post url_base_path request st') = inr (content response))
  /\ (forall request used_params url,
      get_url (rest_address (self st)) url_base_path request used_params
        = inr url ->
      sent (net (snd (get url_base_path request used_params st')))
        = get_request st url :: sent (net st)
      /\ forall response,
           send (net st') (get_request st url) = inr response ->
           status_code response = 200%Z ->
           fst (get url_base_path request used_params st')
             = inr (content response)).
Proof.
  intros st'.
  split; [now left|]. split.
  - intros request.
    pose proof (post_run st' url_base_path request) as Hrun.
    cbv zeta in Hrun.
    change (post_request st' url_base_path request)
      with (post_request st url_base_path request) in Hrun.
    split.
    + rewrite Hrun.
      destruct (send _ _) as [|response]; [reflexivity|].
      now destruct (status_code response =? 200)%Z.
    + intros response Hs H200. rewrite Hs in Hrun.
      apply Z.eqb_eq in H200. rewrite H200 in Hrun. now rewrite Hrun.
  - intros request used_params url Hurl.
    pose proof (get_run st' url_base_path request used_params) as Hrun.
    change (rest_address (self st')) with (rest_address (self st)) in Hrun.
    rewrite Hurl in Hrun. cbv zeta in Hrun.
    change (get_request st' url) with (get_request st url) in Hrun.
    split.
    + rewrite Hrun.
      destruct (send _ _) as [|response]; [reflexivity|].
      now destruct (status_code response =? 200)%Z.
    + intros response Hs H200. rewrite Hs in Hrun.
      apply Z.eqb_eq in H200. rewrite H200 in Hrun. now rewrite Hrun.
Qed.

(** X14.  Two clients never share a session: a client made after another, in
    whatever state the first one left the world, has a session of its
    own, and nothing done through the second is sent through, or
    closes, the session of the first. *)
Theorem clients_do_not_share_sessions (address1 address2 : string)
    (w : world) (cs1 cs2 : list call) :
  let st1 := run_calls cs1 (__init__ address1 w) in
  let st2 := run_calls cs2 (__init__ address2 (net st1)) in
  _session (self st2) <> _session (self st1)
  /\ (exists new,
       sent (net st2) = (new ++ sent (net st1))%list
       /\ Forall (fun rq => rq_session rq = _session (self st2)
                            /\ rq_session rq <> _session (self st1)) new)
  /\ closed (net st2)
     = (repeat (_session (self st2)) (length (filter is_del cs2))
        ++ closed (net st1))%list.
Proof.
  intros st1 st2.
  destruct (run_calls_since cs1 _ _ (since_refl (__init__ address1 w)))
    as [Hself1 [Hn1 _]].
  fold st1 in Hself1, Hn1.
  destruct (run_calls_since cs2 _ _ (since_refl (__init__ address2 (net st1))))
    as [Hself2 [_ [new [Hsent Hall]]]].
  fold st2 in Hself2, Hsent.
  assert (_session (self st2) = S (_session (self st1))) as Hs.
  { rewrite Hself2, Hself1. simpl. rewrite Hn1. reflexivity. }
  split; [rewrite Hs; lia|]. split.
  - exists new. split; [exact Hsent|].
    eapply Forall_impl; [|exact Hall]. intros rq Hrq.
    simpl in Hrq. rewrite Hself2. simpl.
    split; [exact Hrq|]. rewrite Hrq, Hself1, Hn1. simpl. lia.
  - rewrite Hself2. unfold st2. rewrite run_calls_closed. reflexivity.
Qed.

End Lifetimes.

(** ** The message of the error *)

Section Messages.

Lemma printable_app (a b : string) :
  printable_text a -> printable_text b -> printable_text (a ++ b).
Proof.
  unfold printable_text. intros Ha Hb. rewrite chars_app.
  apply Forall_app. now split.
Qed.

Lemma bytes_repr_char_printable (quote c : ascii) :
  quote = squote \/ quote = dquote ->
  printable_text (bytes_repr_char quote c).
Proof.
  intros Hq.
  assert (forallb printable (chars (bytes_repr_char quote c)) = true) as H.
  { destruct Hq as [->| ->]; destruct c as [[] [] [] [] [] [] [] []];
      vm_compute; reflexivity. }
  unfold printable_text. apply Forall_forall.
  rewrite forallb_forall in H. exact H.
Qed.

Lemma bytes_quote_cases (s : string) :
  bytes_quote s = squote \/ bytes_quote s = dquote.
Proof.
  unfold bytes_quote.
  destruct (mem_char squote s && negb (mem_char dquote s)); auto.
Qed.

(** [str] of a body is printable ASCII, whatever octets the body holds. *)
Lemma bytes_repr_printable (b : bytes) : printable_text (bytes_repr b).
Proof.
  unfold bytes_repr.
  set (s := string_of_bytes b). set (q := bytes_quote s).
  assert (printable q = true) as Hq.
  { unfold q. destruct (bytes_quote_cases s) as [->| ->]; reflexivity. }
  apply (printable_app "b"); [repeat constructor|].
  unfold printable_text.
  change (chars (String q (String.concat ""
                   (map (bytes_repr_char q) (chars s)) ++ String q "")))
    with (q :: chars (String.concat ""
                   (map (bytes_repr_char q) (chars s)) ++ String q "")).
  constructor; [exact Hq|]. rewrite chars_app.
  apply Forall_app. split; [|repeat constructor; exact Hq].
  rewrite chars_concat_empty.
  induction (chars s) as [|c l IH]; simpl; [constructor|].
  apply Forall_app. split; [|exact IH].
  apply bytes_repr_char_printable. apply bytes_quote_cases.
Qed.

Lemma string_of_uint_printable (d : Decimal.uint) :
  printable_text (NilEmpty.string_of_uint d).
Proof.
  unfold printable_text.
  induction d; simpl; constructor; try reflexivity; assumption.
Qed.

Lemma int_str_printable (z : Z) : printable_text (int_str z).
Proof.
  unfold int_str, NilZero.string_of_int.
  destruct (Z.to_int z) as [d|d].
  - unfold NilZero.string_of_uint.
    destruct d; try apply string_of_uint_printable.
    repeat constructor.
  - unfold printable_text. simpl. constructor; [reflexivity|].
    unfold NilZero.string_of_uint.
    destruct d; try apply string_of_uint_printable.
    repeat constructor.
Qed.

(** X15.  The message of the [RuntimeError] of [get] is two lines of printable
    ASCII: whatever the status and the body of the answer, no control
    character, line break or octet above 126 of the body gets into it. *)
Theorem get_error_is_two_printable_lines (response : Response) :
  exists line2,
    get_error response
      = "Error when sending a GET request." ++ nl ++ line2
    /\ printable_text line2.
Proof.
  exists (" Response: " ++ int_str (status_code response) ++ ", "
          ++ bytes_repr (content response) ++ ")").
  split; [reflexivity|].
  apply (printable_app " Response: "); [repeat constructor|].
  apply (printable_app (int_str (status_code response)));
    [apply int_str_printable|].
  apply (printable_app ", "); [repeat constructor|].
  apply (printable_app (bytes_repr (content response)) ")");
    [apply bytes_repr_printable|repeat constructor].
Qed.

End Messages.

(** ** The further properties at work *)

(** A 200 answer: what comes back is its body. *)
Lemma returns_only_the_body_of_a_200_witness :
  fst (@get ascii_builtins (answering (inr latest_block)) dict_codec
         "/blocks/latest" None None fresh_client)
    = inr (content latest_block)
  /\ exists url response,
       @get_url ascii_builtins dict_codec "http://node" "/blocks/latest"
         None None = inr url
       /\ response = latest_block
       /\ status_code response = 200%Z.
Proof.
  assert (fst (@get ascii_builtins (answering (inr latest_block)) dict_codec
                 "/blocks/latest" None None fresh_client)
          = inr (content latest_block)) as H by reflexivity.
  split; [exact H|].
  destruct (proj1 (@returns_only_the_body_of_a_200 ascii_builtins
                     (answering (inr latest_block)) dict_codec fresh_client
                     "/blocks/latest" (content latest_block)) None None H)
    as [url [response [Hurl [Hsend [H200 _]]]]].
  exists url, response. split; [exact Hurl|]. split; [|exact H200].
  simpl in Hsend. now inversion Hsend.
Defined.

(** A key that the request does not have: [KeyError], nothing sent. *)
Lemma exceptions_of_get_and_post_witness :
  fst (@get ascii_builtins (answering (inr latest_block)) dict_codec
         "/balances" (Some balance_request) (Some ["height"]) fresh_client)
    = inl (KeyError "height")
  /\ snd (@get ascii_builtins (answering (inr latest_block)) dict_codec
            "/balances" (Some balance_request) (Some ["height"]) fresh_client)
     = fresh_client.
Proof.
  assert (fst (@get ascii_builtins (answering (inr latest_block)) dict_codec
                 "/balances" (Some balance_request) (Some ["height"])
                 fresh_client)
          = inl (KeyError "height")) as H by reflexivity.
  split; [exact H|].
  destruct (proj1 (@exceptions_of_get_and_post ascii_builtins
                     (answering (inr latest_block)) dict_codec fresh_client
                     "/balances" (KeyError "height"))
              (Some balance_request) (Some ["height"]) H)
    as [[message [used [key [_ [_ [_ [_ Hst]]]]]]]|[Hx|Hx]].
  - exact Hst.
  - destruct Hx as [url [msg [_ [_ He]]]]. discriminate He.
  - destruct Hx as [url [response [_ [_ [_ He]]]]]. discriminate He.
Defined.

(** A node that cannot be reached. *)
Lemma transport_exception_propagates_witness :
  fst (@post ascii_builtins (answering (inl "connection refused")) dict_codec
         "/cosmos/tx/v1beta1/txs" tx_request fresh_client)
    = inl (RequestException "connection refused")
  /\ length (sent (net (snd (@post ascii_builtins
                               (answering (inl "connection refused"))
                               dict_codec "/cosmos/tx/v1beta1/txs"
                               tx_request fresh_client)))) = 1%nat.
Proof.
  pose proof (proj2 (@transport_exception_propagates ascii_builtins
                       (answering (inl "connection refused")) dict_codec
                       fresh_client "/cosmos/tx/v1beta1/txs"
                       "connection refused") tx_request eq_refl) as H.
  rewrite H. split; reflexivity.
Defined.

(** [address] and [denom] listed in either order. *)
Lemma used_params_order_irrelevant_witness :
  Permutation ["address"; "denom"] ["denom"; "address"]
  /\ @get_url ascii_builtins dict_codec "http://node" "/balances"
       (Some paged_balances_request) (Some ["pagination"; "address"])
     = inr "http://node/balances"
  /\ @get_url ascii_builtins dict_codec "http://node" "/balances"
       (Some balance_request) (Some ["denom"; "address"])
     = inr "http://node/balances".
Proof.
  assert (Permutation ["address"; "denom"] ["denom"; "address"]) as Hp
    by apply perm_swap.
  split; [exact Hp|]. split; [reflexivity|].
  exact (proj1 (@used_params_order_irrelevant ascii_builtins dict_codec
                  "http://node" "/balances" balance_request
                  ["address"; "denom"] ["denom"; "address"] Hp)
           "http://node/balances" eq_refl).
Defined.

(** Both fields of the balance query are in the path. *)
Lemma all_fields_used_gives_bare_url_witness :
  NoDup ["denom"; "address"]
  /\ @get_url ascii_builtins dict_codec "http://node"
       "/balances/fetch1abc/atestfet" (Some balance_request)
       (Some ["denom"; "address"])
     = inr "http://node/balances/fetch1abc/atestfet".
Proof.
  assert (NoDup ["denom"; "address"]) as Hnd.
  { apply nodupb_NoDup. reflexivity. }
  split; [exact Hnd|].
  apply (@all_fields_used_gives_bare_url ascii_builtins dict_codec
           "http://node" "/balances/fetch1abc/atestfet" balance_request
           ["denom"; "address"] Hnd).
  intros key. simpl. tauto.
Defined.

(** A bech32 address goes into the URL as it is. *)
Lemma quote_plus_keeps_unreserved_witness :
  unreserved "fetch1abc" /\ quote_plus "fetch1abc" = "fetch1abc".
Proof.
  assert (unreserved "fetch1abc") as H by (repeat constructor).
  split; [exact H|]. exact (quote_plus_keeps_unreserved "fetch1abc" H).
Defined.

(** An integer, a boolean and a null field. *)
Lemma scalar_fields_give_one_pair_each_witness :
  (forall k v, In (k, v) height_request -> scalar v = true)
  /\ @urlencode ascii_builtins height_request
     = "height=42&prove=True&chain=None"
  /\ query_pairs "height=42&prove=True&chain=None"
     = [("height", "42"); ("prove", "True"); ("chain", "None")].
Proof.
  assert (forall k v, In (k, v) height_request -> scalar v = true) as H.
  { intros k v [E|[E|[E|[]]]]; inversion E; reflexivity. }
  split; [exact H|]. split; [reflexivity|].
  exact (proj1 (@scalar_fields_give_one_pair_each ascii_builtins
                  height_request H)).
Defined.

(** Two page limits, one URL. *)
Lemma nested_values_never_reach_the_url_witness :
  keys [("limit", JStr "10")] = keys [("limit", JStr "99")]
  /\ @get ascii_builtins (answering (inr latest_block)) dict_codec
       "/balances" (Some (paged_request "10")) None fresh_client
     = @get ascii_builtins (answering (inr latest_block)) dict_codec
         "/balances" (Some (paged_request "99")) None fresh_client
  /\ @get_url ascii_builtins dict_codec "http://node" "/balances"
       (Some (paged_request "10")) None
     = inr "http://node/balances?address=fetch1abc&pagination=limit".
Proof.
  split; [reflexivity|]. split; [|reflexivity].
  exact (proj1 (@nested_values_never_reach_the_url ascii_builtins
                  (answering (inr latest_block)) dict_codec fresh_client
                  "/balances" (paged_request "10") (paged_request "99") None
                  [("address", JStr "fetch1abc")] [] "pagination"
                  [("limit", JStr "10")] [("limit", JStr "99")]
                  eq_refl eq_refl eq_refl)).
Defined.

(** A message inside a list is written with its values. *)
Example messages_in_a_list_keep_their_values :
  @get_url ascii_builtins dict_codec "http://node" "/x"
    (Some [("items", JList [JDict [("k", JStr "v")]])]) None
  = inr "http://node/x?items=%7B%27k%27%3A+%27v%27%7D".
Proof. reflexivity. Qed.

(** A value with a space, an ampersand and a question mark. *)
Lemma get_url_query_is_safe_witness :
  @get_url ascii_builtins dict_codec "http://node" "/txs"
    (Some [("events", JStr "a b&c?d")]) None
    = inr "http://node/txs?events=a+b%26c%3Fd"
  /\ ("http://node/txs?events=a+b%26c%3Fd" = "http://node" ++ "/txs"
      \/ exists q,
           "http://node/txs?events=a+b%26c%3Fd"
             = "http://node" ++ "/txs" ++ "?" ++ q
           /\ q <> "").
Proof.
  split; [reflexivity|].
  destruct (@get_url_query_is_safe ascii_builtins dict_codec "http://node"
              "/txs" [("events", JStr "a b&c?d")] None
              "http://node/txs?events=a+b%26c%3Fd" eq_refl)
    as [H|[q [Hq [Hne _]]]].
  - now left.
  - right. exists q. now split.
Defined.
